(** * whoop_sdk.auth: the OAuth token lifecycle of [AuthManager]

    A shallow embedding of [src/whoop_sdk/auth.py].  Python values that
    travel through the manager (settings, tokens, token-endpoint bodies)
    are JSON values; a Python [dict] is an insertion-ordered association
    list with unique keys; the process environment, the two files under
    [~/.whoop_sdk], the console and the token endpoint form an explicit
    [World] that every method threads through a state-and-exception monad.

    Modelling boundaries, stated once:
    - a Python [str] is a [string] whose characters are the code points
      0..255; text with larger code points is outside the fragment;
    - JSON numbers are integers; a text holding a float literal parses to
      the distinguished outcome [Unsupported], never to a wrong value;
    - the keys of a dict are strs; [dict.update] on a sequence that holds a
      pair whose key is a number, a boolean or None ends in [Unsupported]
      at that pair;
    - file writes succeed (no disk-full or permission failures). *)

From Stdlib Require Import ZArith List String Ascii Bool Lia.
From Stdlib Require Import DecimalFacts DecimalPos DecimalZ DecimalString.
Import ListNotations.
Local Open Scope string_scope.
Local Open Scope Z_scope.
Set Warnings "-register-all".

(* ------------------------------------------------------------------ *)
(** ** Python values *)

Inductive json : Type :=
| JNull
| JBool (b : bool)
| JInt (z : Z)
| JStr (s : string)
| JList (l : list json)
| JObj (d : list (string * json)).

(** A Python dict with string keys, in insertion order. *)
Definition dict := list (string * json).

(** [bool(o)]: None, False, 0, the empty string, list and dict are false. *)
Definition truthy (o : json) : bool :=
  match o with
  | JNull => false
  | JBool b => b
  | JInt z => negb (z =? 0)
  | JStr s => negb (s =? "")%string
  | JList l => match l with [] => false | _ => true end
  | JObj d => match d with [] => false | _ => true end
  end.

(** [a or b] on already evaluated operands. *)
Definition py_or (a b : json) : json := if truthy a then a else b.

Fixpoint dict_get (k : string) (d : dict) : option json :=
  match d with
  | [] => None
  | (k', v) :: d' => if (k =? k')%string then Some v else dict_get k d'
  end.

(** [d[k] = v]: an existing key keeps its position, a new key goes last. *)
Fixpoint dict_set (k : string) (v : json) (d : dict) : dict :=
  match d with
  | [] => [(k, v)]
  | (k', v') :: d' =>
      if (k =? k')%string then (k', v) :: d' else (k', v') :: dict_set k v d'
  end.

(** [d.update(new)] for a mapping [new]. *)
Definition dict_update (d new : dict) : dict :=
  fold_left (fun acc kv => dict_set (fst kv) (snd kv) acc) new d.

(** [dict(pairs)]. *)
Definition dict_of_pairs (pairs : list (string * json)) : dict :=
  dict_update [] pairs.

Fixpoint nodup_keys (ks : list string) : bool :=
  match ks with
  | [] => true
  | k :: ks' => negb (existsb (String.eqb k) ks') && nodup_keys ks'
  end.

(** The representation invariant of Python dicts: no key occurs twice,
    at any depth. *)
Fixpoint wf_json (o : json) : bool :=
  match o with
  | JList l => forallb wf_json l
  | JObj d =>
      nodup_keys (map fst d) &&
      (fix wf_items (d : dict) : bool :=
         match d with
         | [] => true
         | (_, v) :: d' => wf_json v && wf_items d'
         end) d
  | _ => true
  end.

(* ------------------------------------------------------------------ *)
(** ** Exceptions and the state monad *)

Inductive exn : Type :=
| RuntimeError (msg : string)
| KeyError (key : string)
| AttributeError
| TypeError
| ValueError
| EOFError
| FileNotFoundError
| ConnectionError
| HTTPError (status_code : Z) (text : string)
| JSONDecodeError
| Unsupported.  (* not a Python exception: the run left the modelled fragment *)

Inductive Result (A : Type) : Type :=
| Ok (a : A)
| Raise (e : exn).
Arguments Ok {A} a.
Arguments Raise {A} e.

Definition M (S A : Type) : Type := S -> Result A * S.

Definition ret {S A} (a : A) : M S A := fun s => (Ok a, s).
Definition raise {S A} (e : exn) : M S A := fun s => (Raise e, s).
Definition bind {S A B} (m : M S A) (k : A -> M S B) : M S B :=
  fun s => match m s with
           | (Ok a, s') => k a s'
           | (Raise e, s') => (Raise e, s')
           end.
Definition lift {S A} (r : Result A) : M S A := fun s => (r, s).
Definition gets {S A} (f : S -> A) : M S A := fun s => (Ok (f s), s).
Definition modify {S} (f : S -> S) : M S unit := fun s => (Ok tt, f s).

Declare Scope py_scope.
Delimit Scope py_scope with py.
Notation "x <- m ;; k" := (bind m (fun x => k))
  (at level 61, m at next level, right associativity) : py_scope.
Notation "m ;;; k" := (bind m (fun _ => k))
  (at level 61, right associativity) : py_scope.

(* ------------------------------------------------------------------ *)
(** ** json.dump(obj, f, indent=2) *)

Definition is_digit (c : ascii) : bool :=
  let n := N_of_ascii c in ((48 <=? n) && (n <=? 57))%N.

(** [int.__repr__]. *)
Definition int_repr (z : Z) : string := NilZero.string_of_int (Z.to_int z).

Definition hex_lower (n : N) : ascii :=
  if (n <? 10)%N then ascii_of_N (48 + n) else ascii_of_N (87 + n).

(** One character of [encode_basestring_ascii]: backslash, the double
    quote and everything outside [' '..'~'] are escaped. *)
Definition escape_char (c : ascii) : string :=
  let n := N_of_ascii c in
  if (n =? 34)%N then String "\" (String "034" "")
  else if (n =? 92)%N then "\\"
  else if (n =? 8)%N then "\b"
  else if (n =? 12)%N then "\f"
  else if (n =? 10)%N then "\n"
  else if (n =? 13)%N then "\r"
  else if (n =? 9)%N then "\t"
  else if ((32 <=? n) && (n <=? 126))%N then String c ""
  else String "\" (String "u" (String "0" (String "0"
         (String (hex_lower (n / 16)) (String (hex_lower (n mod 16)) ""))))).

Fixpoint escape_chars (s : string) : string :=
  match s with
  | "" => ""
  | String c r => escape_char c ++ escape_chars r
  end.

Definition encode_basestring_ascii (s : string) : string :=
  String "034" (escape_chars s ++ String "034" "").

Fixpoint spaces (n : nat) : string :=
  match n with O => "" | S n' => String " " (spaces n') end.

(** ['\n' + indent * level] with [indent = "  "]. *)
Definition newline_indent (level : nat) : string :=
  String "010" (spaces (2 * level)).

Fixpoint iterencode (level : nat) (o : json) {struct o} : string :=
  match o with
  | JNull => "null"
  | JBool true => "true"
  | JBool false => "false"
  | JInt z => int_repr z
  | JStr s => encode_basestring_ascii s
  | JList [] => "[]"
  | JList (x :: xs) =>
      "[" ++ newline_indent (S level) ++ iterencode (S level) x ++
      (fix more (l : list json) : string :=
         match l with
         | [] => ""
         | y :: ys =>
             "," ++ newline_indent (S level) ++ iterencode (S level) y ++ more ys
         end) xs ++
      newline_indent level ++ "]"
  | JObj [] => "{}"
  | JObj ((k, v) :: kvs) =>
      "{" ++ newline_indent (S level) ++
      encode_basestring_ascii k ++ ": " ++ iterencode (S level) v ++
      (fix more (l : dict) : string :=
         match l with
         | [] => ""
         | (k', v') :: l' =>
             "," ++ newline_indent (S level) ++
             encode_basestring_ascii k' ++ ": " ++ iterencode (S level) v' ++
             more l'
         end) kvs ++
      newline_indent level ++ "}"
  end.

Definition json_dumps (o : json) : string := iterencode 0 o.

(* ------------------------------------------------------------------ *)
(** ** json.load(f) *)

(** Outcome of a scanner at a position: the value and the text after it,
    a [JSONDecodeError], a text outside the modelled fragment (a float
    literal, a code point above 255), or the end of the fuel. *)
Inductive presult (A : Type) : Type :=
| POk (a : A) (rest : string)
| PErr
| PUnsupported
| PFuel.
Arguments POk {A} a rest.
Arguments PErr {A}.
Arguments PUnsupported {A}.
Arguments PFuel {A}.

Definition pmap {A B} (f : A -> B) (r : presult A) : presult B :=
  match r with
  | POk a rest => POk (f a) rest
  | PErr => PErr
  | PUnsupported => PUnsupported
  | PFuel => PFuel
  end.

Definition is_ws (c : ascii) : bool :=
  match c with
  | " "%char | "009"%char | "010"%char | "013"%char => true
  | _ => false
  end.

Fixpoint skip_ws (s : string) : string :=
  match s with
  | "" => ""
  | String c r => if is_ws c then skip_ws r else s
  end.

Fixpoint strip_prefix (p s : string) : option string :=
  match p, s with
  | "", _ => Some s
  | String a p', String b s' => if Ascii.eqb a b then strip_prefix p' s' else None
  | _, _ => None
  end.

Definition hex_val (c : ascii) : option N :=
  let n := N_of_ascii c in
  if ((48 <=? n) && (n <=? 57))%N then Some (n - 48)%N
  else if ((97 <=? n) && (n <=? 102))%N then Some (n - 87)%N
  else if ((65 <=? n) && (n <=? 70))%N then Some (n - 55)%N
  else None.

Definition hex4 (a b c d : ascii) : option N :=
  match hex_val a, hex_val b, hex_val c, hex_val d with
  | Some x, Some y, Some z, Some w => Some (((x * 16 + y) * 16 + z) * 16 + w)%N
  | _, _, _, _ => None
  end.

(** The table [BACKSLASH] of the decoder. *)
Definition unescape (e : ascii) : option ascii :=
  match e with
  | "034"%char => Some "034"%char
  | "\"%char => Some "\"%char
  | "/"%char => Some "/"%char
  | "b"%char => Some "008"%char
  | "f"%char => Some "012"%char
  | "n"%char => Some "010"%char
  | "r"%char => Some "013"%char
  | "t"%char => Some "009"%char
  | _ => None
  end.

(** [scanstring], strict mode, from the character after the opening quote. *)
Fixpoint scanstring (s : string) : presult string :=
  match s with
  | "" => PErr
  | String c r =>
      if Ascii.eqb c "034" then POk "" r
      else if Ascii.eqb c "\" then
        match r with
        | "" => PErr
        | String e r1 =>
            if Ascii.eqb e "u" then
              match r1 with
              | String h1 (String h2 (String h3 (String h4 r2))) =>
                  match hex4 h1 h2 h3 h4 with
                  | Some n =>
                      if (n <? 256)%N
                      then pmap (String (ascii_of_N n)) (scanstring r2)
                      else PUnsupported
                  | None => PErr
                  end
              | _ => PErr
              end
            else
              match unescape e with
              | Some c' => pmap (String c') (scanstring r1)
              | None => PErr
              end
        end
      else if (N_of_ascii c <? 32)%N then PErr
      else pmap (String c) (scanstring r)
  end.

Definition digit_of (c : ascii) : option (Decimal.uint -> Decimal.uint) :=
  match c with
  | "0"%char => Some Decimal.D0
  | "1"%char => Some Decimal.D1
  | "2"%char => Some Decimal.D2
  | "3"%char => Some Decimal.D3
  | "4"%char => Some Decimal.D4
  | "5"%char => Some Decimal.D5
  | "6"%char => Some Decimal.D6
  | "7"%char => Some Decimal.D7
  | "8"%char => Some Decimal.D8
  | "9"%char => Some Decimal.D9
  | _ => None
  end.

(** The longest run of decimal digits at the head of [s]. *)
Fixpoint lex_digits (s : string) : Decimal.uint * string :=
  match s with
  | "" => (Decimal.Nil, "")
  | String c r =>
      match digit_of c with
      | Some d => let (u, rest) := lex_digits r in (d u, rest)
      | None => (Decimal.Nil, s)
      end
  end.

(** Whether a fraction [\.\d+] or an exponent [[eE][-+]?\d+] follows. *)
Definition float_tail (s : string) : bool :=
  match s with
  | String "." (String d _) => is_digit d
  | String "e" r | String "E" r =>
      match r with
      | String "+" (String d _) | String "-" (String d _) => is_digit d
      | String d _ => is_digit d
      | "" => false
      end
  | _ => false
  end.

(** The digits after an optional sign: [0] alone or [[1-9]\d*]. *)
Definition match_integer (neg : bool) (s : string) : presult json :=
  match s with
  | String c r =>
      if is_digit c then
        let (u, rest) :=
          if Ascii.eqb c "0" then (Decimal.D0 Decimal.Nil, r) else lex_digits s in
        if float_tail rest then PUnsupported
        else POk (JInt (Z.of_int (if neg then Decimal.Neg u else Decimal.Pos u))) rest
      else PErr
  | "" => PErr
  end.

Definition match_number (s : string) : presult json :=
  match s with
  | String "-" r => match_integer true r
  | _ => match_integer false s
  end.

Definition starts_with (p s : string) : bool :=
  match strip_prefix p s with Some _ => true | None => false end.

(** The text after [c] when [s] starts with [c]. *)
Definition expect (c : ascii) (s : string) : option string :=
  match s with
  | String a r => if Ascii.eqb a c then Some r else None
  | "" => None
  end.

(** A value that is no string, object or array: a literal or a number. *)
Definition scan_atom (s : string) : presult json :=
  match strip_prefix "null" s, strip_prefix "true" s, strip_prefix "false" s with
  | Some r, _, _ => POk JNull r
  | _, Some r, _ => POk (JBool true) r
  | _, _, Some r => POk (JBool false) r
  | None, None, None =>
      match match_number s with
      | PErr =>
          if starts_with "NaN" s || starts_with "Infinity" s
             || starts_with "-Infinity" s
          then PUnsupported else PErr
      | r => r
      end
  end.

Fixpoint scan_once (fuel : nat) (s : string) {struct fuel} : presult json :=
  match fuel with
  | O => PFuel
  | S f =>
      match s with
      | "" => PErr
      | String c r =>
          if Ascii.eqb c "034" then pmap JStr (scanstring r)
          else if Ascii.eqb c "{" then
            match expect "}" (skip_ws r), expect "034" (skip_ws r) with
            | Some r', _ => POk (JObj []) r'
            | None, Some r' => object_loop f r' []
            | None, None => PErr
            end
          else if Ascii.eqb c "[" then
            match expect "]" (skip_ws r) with
            | Some r' => POk (JList []) r'
            | None => array_loop f (skip_ws r) []
            end
          else scan_atom s
      end
  end

with object_loop (fuel : nat) (s : string) (pairs : list (string * json))
       {struct fuel} : presult json :=
  match fuel with
  | O => PFuel
  | S f =>
      match scanstring s with
      | POk key s1 =>
          match expect ":" (skip_ws s1) with
          | Some s2 =>
              match scan_once f (skip_ws s2) with
              | POk value s3 =>
                  let pairs' := (pairs ++ [(key, value)])%list in
                  match expect "}" (skip_ws s3), expect "," (skip_ws s3) with
                  | Some s4, _ => POk (JObj (dict_of_pairs pairs')) s4
                  | None, Some s4 =>
                      match expect "034" (skip_ws s4) with
                      | Some s5 => object_loop f s5 pairs'
                      | None => PErr
                      end
                  | None, None => PErr
                  end
              | PErr => PErr
              | PUnsupported => PUnsupported
              | PFuel => PFuel
              end
          | None => PErr
          end
      | PErr => PErr
      | PUnsupported => PUnsupported
      | PFuel => PFuel
      end
  end

with array_loop (fuel : nat) (s : string) (values : list json)
       {struct fuel} : presult json :=
  match fuel with
  | O => PFuel
  | S f =>
      match scan_once f s with
      | POk value s1 =>
          let values' := (values ++ [value])%list in
          match expect "]" (skip_ws s1), expect "," (skip_ws s1) with
          | Some s2, _ => POk (JList values') s2
          | None, Some s2 => array_loop f (skip_ws s2) values'
          | None, None => PErr
          end
      | PErr => PErr
      | PUnsupported => PUnsupported
      | PFuel => PFuel
      end
  end.

(** [json.loads]: one value, surrounded by whitespace only.  Of two calls
    of the scanner in a row one consumes a character, so twice the length
    of the text bounds the depth of the calls and the fuel never ends
    (lemma [json_loads_fuel]). *)
Definition json_loads (s : string) : Result json :=
  match scan_once (2 * String.length s + 2) (skip_ws s) with
  | POk v rest =>
      match skip_ws rest with
      | "" => Ok v
      | _ => Raise JSONDecodeError
      end
  | PErr => Raise JSONDecodeError
  | PUnsupported | PFuel => Raise Unsupported
  end.

(* ------------------------------------------------------------------ *)
(** ** str(), str.strip() and urllib.parse *)

Definition hex_upper (n : N) : ascii :=
  if (n <? 10)%N then ascii_of_N (48 + n) else ascii_of_N (55 + n).

(** [str.isprintable] on the code points below 256. *)
Definition is_printable (c : ascii) : bool :=
  let n := N_of_ascii c in
  ((32 <=? n) && (n <=? 126) || (161 <=? n) && negb (n =? 173))%N.

Definition repr_char (q c : ascii) : string :=
  let n := N_of_ascii c in
  if Ascii.eqb c q || Ascii.eqb c "\" then String "\" (String c "")
  else if (n =? 9)%N then "\t"
  else if (n =? 10)%N then "\n"
  else if (n =? 13)%N then "\r"
  else if is_printable c then String c ""
  else String "\" (String "x"
         (String (hex_lower (n / 16)) (String (hex_lower (n mod 16)) ""))).

Fixpoint repr_chars (q : ascii) (s : string) : string :=
  match s with
  | "" => ""
  | String c r => repr_char q c ++ repr_chars q r
  end.

Fixpoint contains_char (c : ascii) (s : string) : bool :=
  match s with
  | "" => false
  | String a r => Ascii.eqb a c || contains_char c r
  end.

(** [repr] of a str: single quotes unless the text holds a single quote and
    no double quote. *)
Definition str_repr (s : string) : string :=
  let q := if contains_char "'" s && negb (contains_char "034" s)
           then "034"%char else "'"%char in
  String q (repr_chars q s ++ String q "").

Fixpoint py_repr (o : json) : string :=
  match o with
  | JNull => "None"
  | JBool true => "True"
  | JBool false => "False"
  | JInt z => int_repr z
  | JStr s => str_repr s
  | JList [] => "[]"
  | JList (x :: xs) =>
      "[" ++ py_repr x ++
      (fix more (l : list json) : string :=
         match l with
         | [] => ""
         | y :: ys => ", " ++ py_repr y ++ more ys
         end) xs ++ "]"
  | JObj [] => "{}"
  | JObj ((k, v) :: kvs) =>
      "{" ++ str_repr k ++ ": " ++ py_repr v ++
      (fix more (l : dict) : string :=
         match l with
         | [] => ""
         | (k', v') :: l' => ", " ++ str_repr k' ++ ": " ++ py_repr v' ++ more l'
         end) kvs ++ "}"
  end.

Definition py_str (o : json) : string :=
  match o with
  | JStr s => s
  | _ => py_repr o
  end.

(** [str.isspace] on the code points below 256. *)
Definition is_space (c : ascii) : bool :=
  let n := N_of_ascii c in
  ((9 <=? n) && (n <=? 13) || (28 <=? n) && (n <=? 32)
   || (n =? 133) || (n =? 160))%N.

Fixpoint lstrip (s : string) : string :=
  match s with
  | "" => ""
  | String c r => if is_space c then lstrip r else s
  end.

Fixpoint rstrip (s : string) : string :=
  match s with
  | "" => ""
  | String c r =>
      match rstrip r with
      | "" => if is_space c then "" else String c ""
      | r' => String c r'
      end
  end.

Definition strip (s : string) : string := rstrip (lstrip s).

(** The unreserved characters of [urllib.parse.quote]. *)
Definition always_safe (c : ascii) : bool :=
  let n := N_of_ascii c in
  ((65 <=? n) && (n <=? 90) || (97 <=? n) && (n <=? 122)
   || (48 <=? n) && (n <=? 57)
   || (n =? 95) || (n =? 46) || (n =? 45) || (n =? 126))%N.

Definition percent (n : N) : string :=
  String "%" (String (hex_upper (n / 16)) (String (hex_upper (n mod 16)) "")).

(** One character of [quote_plus]: a space becomes a plus sign, every other
    reserved character the percent-escapes of its UTF-8 bytes. *)
Definition quote_plus_char (c : ascii) : string :=
  let n := N_of_ascii c in
  if always_safe c then String c ""
  else if (n =? 32)%N then "+"
  else if (n <? 128)%N then percent n
  else percent (192 + n / 64) ++ percent (128 + n mod 64).

Fixpoint quote_plus (s : string) : string :=
  match s with
  | "" => ""
  | String c r => quote_plus_char c ++ quote_plus r
  end.

(** [urllib.parse.urlencode] of a dict with str keys. *)
Fixpoint urlencode (params : list (string * json)) : string :=
  match params with
  | [] => ""
  | [(k, v)] => quote_plus k ++ "=" ++ quote_plus (py_str v)
  | (k, v) :: rest =>
      quote_plus k ++ "=" ++ quote_plus (py_str v) ++ "&" ++ urlencode rest
  end.

(** [urllib.parse.unquote_plus] within the fragment: a plus sign is a space,
    [%XX] is a byte, bytes are read as UTF-8; [None] when the result has a
    code point above 255 or a byte sequence that is not UTF-8. *)
Fixpoint unquote_plus (s : string) : option string :=
  match s with
  | "" => Some ""
  | String "+" r => option_map (String " ") (unquote_plus r)
  | String "%" (String h1 (String h2 r) as r0) =>
      match hex_val h1, hex_val h2 with
      | Some a, Some b =>
          let n := (a * 16 + b)%N in
          if (n <? 128)%N then option_map (String (ascii_of_N n)) (unquote_plus r)
          else
            match r with
            | String "%" (String h3 (String h4 r')) =>
                match hex_val h3, hex_val h4 with
                | Some a', Some b' =>
                    let m := (a' * 16 + b')%N in
                    if ((194 <=? n) && (n <=? 195) && (128 <=? m) && (m <=? 191))%N
                    then option_map (String (ascii_of_N ((n - 192) * 64 + (m - 128))))
                           (unquote_plus r')
                    else None
                | _, _ => None
                end
            | _ => None
            end
      | _, _ => option_map (String "%") (unquote_plus r0)
      end
  | String c r => option_map (String c) (unquote_plus r)
  end.

(** [s.partition(c)]: the text before the first [c] and, when there is one,
    the text after it. *)
Fixpoint partition (c : ascii) (s : string) : string * option string :=
  match s with
  | "" => ("", None)
  | String a r =>
      if Ascii.eqb a c then ("", Some r)
      else let (x, y) := partition c r in (String a x, y)
  end.

Fixpoint split (c : ascii) (s : string) : list string :=
  match s with
  | "" => [""]
  | String a r =>
      if Ascii.eqb a c then "" :: split c r
      else match split c r with
           | x :: xs => String a x :: xs
           | [] => [String a ""]
           end
  end.

Fixpoint parse_pairs (fields : list string) : option (list (string * string)) :=
  match fields with
  | [] => Some []
  | nv :: rest =>
      match partition "=" nv with
      | (name, Some (String _ _ as value)) =>
          match unquote_plus name, unquote_plus value, parse_pairs rest with
          | Some n, Some v, Some r => Some ((n, v) :: r)
          | _, _, _ => None
          end
      | _ => parse_pairs rest
      end
  end.

(** [urllib.parse.parse_qsl] with its defaults (blank values are dropped). *)
Definition parse_qsl (qs : string) : option (list (string * string)) :=
  parse_pairs (split "&" qs).

(** [urllib.parse.urlsplit(url).query]. *)
Definition url_query (url : string) : string :=
  match partition "?" (fst (partition "#" url)) with
  | (_, Some q) => q
  | (_, None) => ""
  end.

(* ------------------------------------------------------------------ *)
(** ** The world around the manager *)

Inductive Path : Type := CONFIG_PATH | SETTINGS_PATH.

Definition Path_eqb (p q : Path) : bool :=
  match p, q with
  | CONFIG_PATH, CONFIG_PATH | SETTINGS_PATH, SETTINGS_PATH => true
  | _, _ => false
  end.

Record Request : Type := mkRequest { req_url : string; req_data : dict }.

Record Response : Type := mkResponse { resp_status : Z; resp_text : string }.

Inductive Event : Type :=
| EvPrint (line : string)
| EvInput (prompt : string)
| EvBrowser (url : string)
| EvPost (rq : Request)
| EvMkdir
| EvWrite (p : Path) (content : string).

(** [endpoint] answers a request given every request posted so far, the
    current one last; [None] is a connection failure.  [trace] records the
    effects in the order they happen. *)
Record World : Type := mkWorld {
  environ : string -> option string;
  files : Path -> option string;
  stdin : list string;
  endpoint : list Request -> option Response;
  trace : list Event
}.

Definition log (e : Event) (w : World) : World :=
  mkWorld (environ w) (files w) (stdin w) (endpoint w) (trace w ++ [e])%list.

Fixpoint posts (tr : list Event) : list Request :=
  match tr with
  | [] => []
  | EvPost rq :: tr' => rq :: posts tr'
  | _ :: tr' => posts tr'
  end.

Fixpoint writes (tr : list Event) : list (Path * string) :=
  match tr with
  | [] => []
  | EvWrite p c :: tr' => (p, c) :: writes tr'
  | _ :: tr' => writes tr'
  end.

Definition os_getenv (name : string) : M World json :=
  fun w => (Ok (match environ w name with Some v => JStr v | None => JNull end), w).

(** Console lines are recorded in ASCII: the pictograph that opens a line
    is left out, and the settings path stands with [~] for the home
    directory. *)
Definition print (line : string) : M World unit :=
  fun w => (Ok tt, log (EvPrint line) w).

Definition input (prompt : string) : M World string :=
  fun w =>
    let w' := log (EvInput prompt) w in
    match stdin w' with
    | [] => (Raise EOFError, w')
    | l :: ls =>
        (Ok l, mkWorld (environ w') (files w') ls (endpoint w') (trace w'))
    end.

Definition webbrowser_open (url : string) : M World unit :=
  fun w => (Ok tt, log (EvBrowser url) w).

Definition path_exists (p : Path) : M World bool :=
  fun w => (Ok (match files w p with Some _ => true | None => false end), w).

(** [with open(p) as f: json.load(f)] on an existing file. *)
Definition json_load (p : Path) : M World json :=
  fun w => match files w p with
           | Some content => (json_loads content, w)
           | None => (Raise FileNotFoundError, w)
           end.

Definition mkdir_parents : M World unit :=
  fun w => (Ok tt, log EvMkdir w).

(** [with open(p, "w") as f: json.dump(obj, f, indent=2)]. *)
Definition json_dump (obj : json) (p : Path) : M World unit :=
  fun w =>
    let content := json_dumps obj in
    let w' := log (EvWrite p content) w in
    (Ok tt,
     mkWorld (environ w')
       (fun q => if Path_eqb q p then Some content else files w' q)
       (stdin w') (endpoint w') (trace w')).

Definition requests_post (url : string) (data : dict) : M World Response :=
  fun w =>
    let w' := log (EvPost (mkRequest url data)) w in
    match endpoint w' (posts (trace w')) with
    | Some resp => (Ok resp, w')
    | None => (Raise ConnectionError, w')
    end.

(** [resp.raise_for_status()]: the 4xx and 5xx statuses raise. *)
Definition raise_for_status (resp : Response) : Result unit :=
  if (400 <=? resp_status resp) && (resp_status resp <? 600)
  then Raise (HTTPError (resp_status resp) (resp_text resp))
  else Ok tt.

Definition resp_json (resp : Response) : Result json := json_loads (resp_text resp).

(** [o.get(k)]. *)
Definition py_get (o : json) (k : string) : Result json :=
  match o with
  | JObj d => Ok (match dict_get k d with Some v => v | None => JNull end)
  | _ => Raise AttributeError
  end.

(** [o[k]] for a str [k]. *)
Definition py_getitem (o : json) (k : string) : Result json :=
  match o with
  | JObj d => match dict_get k d with Some v => Ok v | None => Raise (KeyError k) end
  | _ => Raise TypeError
  end.

(** One element of the sequence given to [dict.update].  It is iterated and
    has to yield two objects, the key and the value.  Numbers, booleans and
    None are not iterable (TypeError); a str yields its characters, a list
    its elements and a dict its keys, and any count other than two is a
    ValueError; a list or a dict as key is unhashable (TypeError).  A key
    that is a number, a boolean or None is outside the fragment, whose dicts
    have str keys. *)
Definition update_pair (item : json) : Result (string * json) :=
  match item with
  | JNull | JBool _ | JInt _ => Raise TypeError
  | JStr (String a (String b EmptyString)) =>
      Ok (String a EmptyString, JStr (String b EmptyString))
  | JStr _ => Raise ValueError
  | JList [k; v] =>
      match k with
      | JStr s => Ok (s, v)
      | JList _ | JObj _ => Raise TypeError
      | JNull | JBool _ | JInt _ => Raise Unsupported
      end
  | JList _ => Raise ValueError
  | JObj kvs =>
      match dict_of_pairs kvs with
      | [(k1, _); (k2, _)] => Ok (k1, JStr k2)
      | _ => Raise ValueError
      end
  end.

(** [d.update(seq)] for a sequence.  The pairs are stored one by one, so the
    pairs before a failing element stay in the dict. *)
Fixpoint update_seq (d : dict) (items : list json) : dict * Result unit :=
  match items with
  | [] => (d, Ok tt)
  | item :: rest =>
      match update_pair item with
      | Ok (k, v) => update_seq (dict_set k v d) rest
      | Raise e => (d, Raise e)
      end
  end.

(** The elements that iterating a str yields: its characters. *)
Definition str_items (s : string) : list json :=
  map (fun c => JStr (String c EmptyString)) (list_ascii_of_string s).

(** [o.update(arg)], which changes [o] in place: the object after the call
    and how the call ended.  A mapping is merged key by key; any other
    argument is iterated as a sequence of pairs. *)
Definition py_update (o arg : json) : json * Result unit :=
  match o with
  | JObj d =>
      match arg with
      | JObj new => (JObj (dict_update d new), Ok tt)
      | JNull | JBool _ | JInt _ => (o, Raise TypeError)
      | JStr s => let (d', r) := update_seq d (str_items s) in (JObj d', r)
      | JList items => let (d', r) := update_seq d items in (JObj d', r)
      end
  | _ => (o, Raise AttributeError)
  end.

(* ------------------------------------------------------------------ *)
(** ** class AuthManager *)

Definition AUTH_URL : string := "https://api.prod.whoop.com/oauth/oauth2/auth".
Definition TOKEN_URL : string := "https://api.prod.whoop.com/oauth/oauth2/token".

Record AuthManager : Type := mkAuthManager {
  settings : json;
  client_id : json;
  client_secret : json;
  redirect_uri : json;
  scopes : string;
  state : string;
  tokens : json
}.

Definition with_tokens (t : json) (self : AuthManager) : AuthManager :=
  mkAuthManager (settings self) (client_id self) (client_secret self)
    (redirect_uri self) (scopes self) (state self) t.

(** A method runs on the manager and the world together. *)
Definition Proc : Type := (AuthManager * World)%type.

Definition io {A} (m : M World A) : M Proc A :=
  fun s => let (r, w') := m (snd s) in (r, (fst s, w')).

Definition self_get {A} (f : AuthManager -> A) : M Proc A :=
  gets (fun s => f (fst s)).

Definition set_tokens (t : json) : M Proc unit :=
  modify (fun s => (with_tokens t (fst s), snd s)).

Local Open Scope py_scope.

Definition _load_tokens : M World json :=
  ex <- path_exists CONFIG_PATH ;;
  if ex then json_load CONFIG_PATH else ret (JObj []).

Definition _load_settings : M World json :=
  ex <- path_exists SETTINGS_PATH ;;
  if ex then json_load SETTINGS_PATH else ret (JObj []).

Definition _save_settings (data : json) : M World unit :=
  mkdir_parents ;;;
  json_dump data SETTINGS_PATH.

Definition _save_tokens (toks : json) : M Proc unit :=
  io mkdir_parents ;;;
  io (json_dump toks CONFIG_PATH) ;;;
  set_tokens toks.

Definition DEFAULT_REDIRECT : string := "https://www.google.com".

(** [AuthManager.__init__]. *)
Definition init : M World AuthManager :=
  settings <- _load_settings ;;
  env_id <- os_getenv "WHOOP_CLIENT_ID" ;;
  client_id <- (if truthy env_id then ret env_id
                else lift (py_get settings "client_id")) ;;
  env_secret <- os_getenv "WHOOP_CLIENT_SECRET" ;;
  client_secret <- (if truthy env_secret then ret env_secret
                    else lift (py_get settings "client_secret")) ;;
  stored_uri <- lift (py_get settings "redirect_uri") ;;
  let redirect_uri := py_or stored_uri (JStr DEFAULT_REDIRECT) in
  creds <-
    (if negb (truthy client_id) || negb (truthy client_secret) then
       print "WHOOP SDK setup required." ;;;
       l1 <- input "Enter your WHOOP Client ID: " ;;
       let client_id := JStr (strip l1) in
       l2 <- input "Enter your WHOOP Client Secret: " ;;
       let client_secret := JStr (strip l2) in
       l3 <- input "Redirect URI [https://www.google.com]: " ;;
       let redirect_uri := py_or (JStr (strip l3)) (JStr DEFAULT_REDIRECT) in
       _save_settings (JObj [("client_id", client_id);
                             ("client_secret", client_secret);
                             ("redirect_uri", redirect_uri)]) ;;;
       print "Credentials saved to ~/.whoop_sdk/settings.json" ;;;
       ret (client_id, client_secret, redirect_uri)
     else ret (client_id, client_secret, redirect_uri)) ;;
  let '(client_id, client_secret, redirect_uri) := creds in
  toks <- _load_tokens ;;
  ret (mkAuthManager settings client_id client_secret redirect_uri
         "offline read:profile read:recovery read:sleep read:workout"
         "whoop_sdk_state_12345" toks).

(** [self.tokens.update(arg)]: the dict that [self.tokens] names is changed
    in place, also when the call raises part of the way. *)
Definition update_tokens (arg : json) : M Proc unit :=
  toks <- self_get tokens ;;
  set_tokens (fst (py_update toks arg)) ;;;
  lift (snd (py_update toks arg)).

Definition _build_auth_url (self : AuthManager) : string :=
  let params := [("client_id", client_id self);
                 ("response_type", JStr "code");
                 ("redirect_uri", redirect_uri self);
                 ("scope", JStr (scopes self));
                 ("state", JStr (state self))] in
  AUTH_URL ++ "?" ++ urlencode params.

Definition _exchange_code_for_tokens (code : string) : M Proc json :=
  uri <- self_get redirect_uri ;;
  cid <- self_get client_id ;;
  secret <- self_get client_secret ;;
  let data := [("grant_type", JStr "authorization_code");
               ("code", JStr code);
               ("redirect_uri", uri);
               ("client_id", cid);
               ("client_secret", secret)] in
  resp <- io (requests_post TOKEN_URL data) ;;
  lift (raise_for_status resp) ;;;
  lift (resp_json resp).

Definition refresh_access_token : M Proc json :=
  io (print "Refreshing access token...") ;;;
  toks <- self_get tokens ;;
  refresh <- lift (py_getitem toks "refresh_token") ;;
  cid <- self_get client_id ;;
  secret <- self_get client_secret ;;
  let data := [("grant_type", JStr "refresh_token");
               ("refresh_token", refresh);
               ("client_id", cid);
               ("client_secret", secret)] in
  resp <- io (requests_post TOKEN_URL data) ;;
  lift (raise_for_status resp) ;;;
  new_tokens <- lift (resp_json resp) ;;
  update_tokens new_tokens ;;;
  current <- self_get tokens ;;
  _save_tokens current ;;;
  io (print "Access token refreshed.") ;;;
  toks <- self_get tokens ;;
  lift (py_getitem toks "access_token").

Definition ensure_access_token : M Proc json :=
  toks <- self_get tokens ;;
  if negb (truthy toks) then
    raise (RuntimeError "No tokens found. Run Whoop(login=True) first.")
  else
    cached <- lift (py_get toks "access_token") ;;
    if truthy cached then ret cached else refresh_access_token.

Definition login : M Proc json :=
  io (print "Opening WHOOP authorization page in your browser...") ;;;
  url <- self_get _build_auth_url ;;
  io (webbrowser_open url) ;;;
  io (print "Once you approve access, you will be redirected to:") ;;;
  io (print "   https://www.google.com/?code=XXXX&state=whoop_sdk_state_12345") ;;;
  code <- io (input "Paste the code from that URL: ") ;;
  toks <- _exchange_code_for_tokens (strip code) ;;
  _save_tokens toks ;;;
  io (print "WHOOP SDK is now authorized and ready to use!") ;;;
  ret toks.

(* ------------------------------------------------------------------ *)
(** ** Definitions used by the statements and their proofs *)

(** What may follow a printed value: nothing that would extend a number. *)
Definition follow_ok (rest : string) : bool :=
  match rest with
  | "" => true
  | String c _ =>
      negb (is_digit c) && negb (Ascii.eqb c ".") && negb (Ascii.eqb c "e")
      && negb (Ascii.eqb c "E")
  end.

Section json_induction.
Variable P : json -> Prop.
Hypothesis HNull : P JNull.
Hypothesis HBool : forall b, P (JBool b).
Hypothesis HInt : forall z, P (JInt z).
Hypothesis HStr : forall s, P (JStr s).
Hypothesis HList : forall l, Forall P l -> P (JList l).
Hypothesis HObj : forall d, Forall (fun kv => P (snd kv)) d -> P (JObj d).

Fixpoint json_nested_ind (o : json) : P o :=
  match o with
  | JNull => HNull
  | JBool b => HBool b
  | JInt z => HInt z
  | JStr s => HStr s
  | JList l =>
      HList l ((fix go (l : list json) : Forall P l :=
                  match l with
                  | [] => Forall_nil _
                  | x :: xs => Forall_cons x (json_nested_ind x) (go xs)
                  end) l)
  | JObj d =>
      HObj d ((fix go (d : dict) : Forall (fun kv => P (snd kv)) d :=
                 match d with
                 | [] => Forall_nil _
                 | kv :: d' => Forall_cons kv (json_nested_ind (snd kv)) (go d')
                 end) d)
  end.
End json_induction.

(** Fuel that certainly suffices to scan the text of a value. *)
Fixpoint need (o : json) : nat :=
  match o with
  | JList l =>
      S ((fix go (l : list json) : nat :=
            match l with
            | [] => O
            | x :: xs => S (need x + go xs)
            end) l)
  | JObj d =>
      S ((fix go (d : dict) : nat :=
            match d with
            | [] => O
            | (_, v) :: d' => S (need v + go d')
            end) d)
  | _ => 1%nat
  end.

(** The first character of a printed value opens a value: it is no
    whitespace and no delimiter. *)
Definition opens_value (s : string) : bool :=
  match s with
  | "" => false
  | String c _ =>
      negb (is_ws c) && negb (Ascii.eqb c "]") && negb (Ascii.eqb c "}")
  end.

Definition list_tail (L : nat) : list json -> string :=
  fix more (l : list json) : string :=
    match l with
    | [] => ""
    | y :: ys => "," ++ newline_indent L ++ iterencode L y ++ more ys
    end.

Definition dict_tail (L : nat) : dict -> string :=
  fix more (l : dict) : string :=
    match l with
    | [] => ""
    | (k', v') :: l' =>
        "," ++ newline_indent L ++
        encode_basestring_ascii k' ++ ": " ++ iterencode L v' ++ more l'
    end.

Definition need_list : list json -> nat :=
  fix go (l : list json) : nat :=
    match l with
    | [] => O
    | x :: xs => S (need x + go xs)
    end.

Definition need_dict : dict -> nat :=
  fix go (d : dict) : nat :=
    match d with
    | [] => O
    | (_, v) :: d' => S (need v + go d')
    end.

Definition scans (o : json) : Prop :=
  wf_json o = true ->
  forall level fuel rest,
    (need o <= fuel)%nat -> follow_ok rest = true ->
    scan_once fuel (iterencode level o ++ rest) = POk o rest.

Definition short (o : json) : Prop :=
  forall level, (need o <= 2 * String.length (iterencode level o))%nat.

(** The request [refresh_access_token] posts when the stored refresh token
    is [r]. *)
Definition refresh_request (self : AuthManager) (r : json) : Request :=
  mkRequest TOKEN_URL
    [("grant_type", JStr "refresh_token");
     ("refresh_token", r);
     ("client_id", client_id self);
     ("client_secret", client_secret self)].

(** What the token endpoint answers when [rq] is the next request posted
    in [w]. *)
Definition answer (w : World) (rq : Request) : option Response :=
  endpoint w (posts (trace w) ++ [rq])%list.

(** The world once a refresh that posted [rq] has stored [merged]. *)
Definition refreshed (w : World) (rq : Request) (merged : json) : World :=
  mkWorld (environ w)
    (fun q => if Path_eqb q CONFIG_PATH then Some (json_dumps merged) else files w q)
    (stdin w) (endpoint w)
    (trace w ++ [EvPrint "Refreshing access token..."; EvPost rq; EvMkdir;
                 EvWrite CONFIG_PATH (json_dumps merged);
                 EvPrint "Access token refreshed."])%list.

(** The world once a refresh has posted [rq] and stopped there. *)
Definition posted (w : World) (rq : Request) : World :=
  mkWorld (environ w) (files w) (stdin w) (endpoint w)
    (trace w ++ [EvPrint "Refreshing access token..."; EvPost rq])%list.

(** Concrete managers and worlds on which the statements are exercised. *)
Definition manager_with (toks : json) : AuthManager :=
  mkAuthManager (JObj []) (JStr "id") (JStr "secret") (JStr DEFAULT_REDIRECT)
    "offline" "s" toks.

Definition quiet_world (e : list Request -> option Response) : World :=
  mkWorld (fun _ => None) (fun _ => None) [] e [].

(** An endpoint that answers every request with status [code] and the JSON
    text of [body]. *)
Definition replies (code : Z) (body : json) : list Request -> option Response :=
  fun _ => Some (mkResponse code (json_dumps body)).

Definition ID_VAR : string := "WHOOP_CLIENT_ID".
Definition SECRET_VAR : string := "WHOOP_CLIENT_SECRET".

(** The usable value of an environment variable: set and not empty. *)
Definition env_value (w : World) (name : string) : option string :=
  match environ w name with
  | Some v => if (v =? "")%string then None else Some v
  | None => None
  end.

(** What the settings file holds when it is loaded. *)
Definition stored_settings (w : World) : Result json :=
  match files w SETTINGS_PATH with
  | Some text => json_loads text
  | None => Ok (JObj [])
  end.

(** The usable value the settings file holds under [key]. *)
Definition settings_value (w : World) (key : string) : option json :=
  match stored_settings w with
  | Ok (JObj d) =>
      match dict_get key d with
      | Some v => if truthy v then Some v else None
      | None => None
      end
  | _ => None
  end.

(** A credential is resolvable when the environment or the settings file
    holds a usable value for it. *)
Definition resolvable (w : World) (var key : string) : bool :=
  match env_value w var, settings_value w key with
  | None, None => false
  | _, _ => true
  end.

(** The credential triple as [_save_settings] receives it. *)
Definition credentials (self : AuthManager) : json :=
  JObj [("client_id", client_id self);
        ("client_secret", client_secret self);
        ("redirect_uri", redirect_uri self)].

(** [os.getenv(name)] as a value. *)
Definition getenv_json (w : World) (name : string) : json :=
  match environ w name with Some v => JStr v | None => JNull end.

(** The value of [os.getenv(var) or settings.get(key)]. *)
Definition resolve (w : World) (s : json) (var key : string) : Result json :=
  if truthy (getenv_json w var) then Ok (getenv_json w var) else py_get s key.

(** The end of [__init__]: the tokens are loaded and the manager is built. *)
Definition finish (s cid sec uri : json) : M World AuthManager :=
  bind _load_tokens (fun toks =>
    ret (mkAuthManager s cid sec uri
           "offline read:profile read:recovery read:sleep read:workout"
           "whoop_sdk_state_12345" toks)).

(** The triple the prompt builds from the three lines it reads. *)
Definition typed_credentials (l1 l2 l3 : string) : json :=
  JObj [("client_id", JStr (strip l1));
        ("client_secret", JStr (strip l2));
        ("redirect_uri", py_or (JStr (strip l3)) (JStr DEFAULT_REDIRECT))].

(** The world once the prompt has read [l1], [l2], [l3] and saved them. *)
Definition prompted (w : World) (l1 l2 l3 : string) (rest : list string) : World :=
  mkWorld (environ w)
    (fun q => if Path_eqb q SETTINGS_PATH
              then Some (json_dumps (typed_credentials l1 l2 l3)) else files w q)
    rest (endpoint w)
    (trace w ++
     [EvPrint "WHOOP SDK setup required.";
      EvInput "Enter your WHOOP Client ID: ";
      EvInput "Enter your WHOOP Client Secret: ";
      EvInput "Redirect URI [https://www.google.com]: ";
      EvMkdir;
      EvWrite SETTINGS_PATH (json_dumps (typed_credentials l1 l2 l3));
      EvPrint "Credentials saved to ~/.whoop_sdk/settings.json"])%list.

(** The world once the prompt has run out of input lines. *)
Definition starved (w : World) : World :=
  mkWorld (environ w) (files w) [] (endpoint w)
    (trace w ++
     EvPrint "WHOOP SDK setup required." ::
     firstn (S (List.length (stdin w)))
       [EvInput "Enter your WHOOP Client ID: ";
        EvInput "Enter your WHOOP Client Secret: ";
        EvInput "Redirect URI [https://www.google.com]: "])%list.

Fixpoint lookup_env (env : list (string * string)) (name : string) : option string :=
  match env with
  | [] => None
  | (k, v) :: env' => if (name =? k)%string then Some v else lookup_env env' name
  end.

(** A world with the given environment, a settings file holding [st], no
    token file, and [lines] waiting on the console. *)
Definition setup_world (env : list (string * string)) (st : json)
           (lines : list string) : World :=
  mkWorld (lookup_env env)
    (fun p => match p with
              | SETTINGS_PATH => Some (json_dumps st)
              | CONFIG_PATH => None
              end)
    lines (fun _ => None) [].

(** The manager [__init__] builds in [w], when it builds one. *)
Definition built (w : World) : option AuthManager :=
  match fst (init w) with
  | Ok m => Some m
  | Raise _ => None
  end.

(** The request [_exchange_code_for_tokens] posts for the pasted [code]. *)
Definition login_request (self : AuthManager) (code : string) : Request :=
  mkRequest TOKEN_URL
    [("grant_type", JStr "authorization_code");
     ("code", JStr code);
     ("redirect_uri", redirect_uri self);
     ("client_id", client_id self);
     ("client_secret", client_secret self)].

(** What [login] shows before it reads the code. *)
Definition login_banner (self : AuthManager) : list Event :=
  [EvPrint "Opening WHOOP authorization page in your browser...";
   EvBrowser (_build_auth_url self);
   EvPrint "Once you approve access, you will be redirected to:";
   EvPrint "   https://www.google.com/?code=XXXX&state=whoop_sdk_state_12345";
   EvInput "Paste the code from that URL: "].

(** The world once [login] has read [line] and posted the exchange. *)
Definition exchanged (self : AuthManager) (w : World) (line : string)
           (rest : list string) : World :=
  mkWorld (environ w) (files w) rest (endpoint w)
    (trace w ++ login_banner self ++
     [EvPost (login_request self (strip line))])%list.

(** The world once [login] has stored [toks]. *)
Definition logged_in (self : AuthManager) (w : World) (line : string)
           (rest : list string) (toks : json) : World :=
  mkWorld (environ w)
    (fun q => if Path_eqb q CONFIG_PATH then Some (json_dumps toks) else files w q)
    rest (endpoint w)
    (trace w ++ login_banner self ++
     [EvPost (login_request self (strip line)); EvMkdir;
      EvWrite CONFIG_PATH (json_dumps toks);
      EvPrint "WHOOP SDK is now authorized and ready to use!"])%list.

(** The world once [refresh_access_token] has announced itself. *)
Definition announced (w : World) : World :=
  log (EvPrint "Refreshing access token...") w.

(** What a session never changes: the credentials of the manager, the
    environment, the settings file and the endpoint. *)
Definition same_session (s s' : Proc) : Prop :=
  settings (fst s') = settings (fst s) /\
  client_id (fst s') = client_id (fst s) /\
  client_secret (fst s') = client_secret (fst s) /\
  redirect_uri (fst s') = redirect_uri (fst s) /\
  scopes (fst s') = scopes (fst s) /\
  state (fst s') = state (fst s) /\
  environ (snd s') = environ (snd s) /\
  files (snd s') SETTINGS_PATH = files (snd s) SETTINGS_PATH /\
  endpoint (snd s') = endpoint (snd s).

Fixpoint browsers (tr : list Event) : list string :=
  match tr with
  | [] => []
  | EvBrowser url :: tr' => url :: browsers tr'
  | _ :: tr' => browsers tr'
  end.

(** A world with [lines] waiting on the console and nothing else. *)
Definition console_world (lines : list string)
           (e : list Request -> option Response) : World :=
  mkWorld (fun _ => None) (fun _ => None) lines e [].

(** A world with the given environment, a settings file holding [st], no
    token file, [lines] on the console and the endpoint [e]. *)
Definition session_world (env : list (string * string)) (st : json)
           (lines : list string) (e : list Request -> option Response) : World :=
  mkWorld (lookup_env env)
    (fun p => match p with
              | SETTINGS_PATH => Some (json_dumps st)
              | CONFIG_PATH => None
              end)
    lines e [].

(* ------------------------------------------------------------------ *)
(** ** Lemmas on strings, dicts and the JSON codec *)

Lemma append_assoc (a b c : string) : (a ++ b) ++ c = a ++ (b ++ c).
Proof. induction a; simpl; congruence. Qed.

Lemma append_nil_r (a : string) : a ++ "" = a.
Proof. induction a; simpl; congruence. Qed.

Lemma length_append (a b : string) :
  String.length (a ++ b) = (String.length a + String.length b)%nat.
Proof. induction a; simpl; congruence. Qed.

(** *** Strings *)

Lemma scanstring_escape_char (c : ascii) (t : string) :
  scanstring (escape_char c ++ t) = pmap (String c) (scanstring t).
Proof.
  destruct c as [b0 b1 b2 b3 b4 b5 b6 b7].
  destruct b0, b1, b2, b3, b4, b5, b6, b7; reflexivity.
Qed.

Lemma scanstring_escape_chars (s rest : string) :
  scanstring (escape_chars s ++ String "034" rest) = POk s rest.
Proof.
  induction s as [|c s IH]; simpl.
  - reflexivity.
  - rewrite append_assoc, scanstring_escape_char, IH. reflexivity.
Qed.

(** *** Integers *)

Lemma follow_ok_digit (rest : string) :
  follow_ok rest = true ->
  match rest with "" => True | String c _ => digit_of c = None end.
Proof.
  destruct rest as [|c r]; [trivial|]. simpl.
  destruct c as [b0 b1 b2 b3 b4 b5 b6 b7].
  destruct b0, b1, b2, b3, b4, b5, b6, b7; simpl; intros H; try reflexivity; discriminate H.
Qed.

Lemma follow_ok_float (rest : string) :
  follow_ok rest = true -> float_tail rest = false.
Proof.
  destruct rest as [|c r]; [reflexivity|]. simpl.
  destruct c as [b0 b1 b2 b3 b4 b5 b6 b7].
  destruct b0, b1, b2, b3, b4, b5, b6, b7; simpl; intros H; try reflexivity; discriminate H.
Qed.

Lemma lex_digits_uint (u : Decimal.uint) (rest : string) :
  follow_ok rest = true ->
  lex_digits (NilEmpty.string_of_uint u ++ rest) = (u, rest).
Proof.
  intros H. induction u; simpl; try (rewrite IHu; reflexivity).
  apply follow_ok_digit in H. destruct rest as [|c r]; [reflexivity|].
  simpl. rewrite H. reflexivity.
Qed.

Lemma to_uint_head (p : positive) :
  exists u, Pos.to_uint p = u /\ u <> Decimal.Nil /\
            forall u', u <> Decimal.D0 u'.
Proof.
  exists (Pos.to_uint p). split; [reflexivity|]. split.
  - apply Unsigned.to_uint_nonnil.
  - intros u' E.
    assert (N : Decimal.unorm (Pos.to_uint p) = Pos.to_uint p).
    { rewrite <- (Unsigned.to_of (Pos.to_uint p)), Unsigned.of_to. reflexivity. }
    rewrite E in N. rewrite unorm_D0 in N.
    assert (Hn : u' = Decimal.Nil \/ u' <> Decimal.Nil)
      by (destruct u'; [left; reflexivity | right; discriminate ..]).
    destruct Hn as [-> | Hn].
    + apply (Unsigned.to_uint_nonzero p). exact E.
    + pose proof (nb_digits_unorm u' Hn) as L.
      rewrite N in L. simpl in L. lia.
Qed.

Lemma match_number_int_repr (z : Z) (rest : string) :
  follow_ok rest = true ->
  match_number (int_repr z ++ rest) = POk (JInt z) rest.
Proof.
  intros H. pose proof (follow_ok_float rest H) as F.
  assert (P : forall p neg,
             match_integer neg (NilEmpty.string_of_uint (Pos.to_uint p) ++ rest)
             = POk (JInt (Z.of_int (if neg then Decimal.Neg (Pos.to_uint p)
                                    else Decimal.Pos (Pos.to_uint p)))) rest).
  { intros p neg. destruct (to_uint_head p) as (u & E & Nn & N0).
    rewrite E. clear E.
    pose proof (lex_digits_uint u rest H) as L.
    destruct u; try (exfalso; apply Nn; reflexivity);
      try (exfalso; apply (N0 u); reflexivity);
      unfold match_integer; cbn [NilEmpty.string_of_uint append is_digit];
      cbn [NilEmpty.string_of_uint append] in L; rewrite L;
      cbn; rewrite F; reflexivity. }
  unfold int_repr. destruct z as [|p|p]; cbn [Z.to_int NilZero.string_of_int].
  - cbn. rewrite F. reflexivity.
  - unfold NilZero.string_of_uint.
    destruct (to_uint_head p) as (u & E & Nn & _).
    pose proof (P p false) as Q. rewrite E in Q |- *.
    destruct u; try (exfalso; apply Nn; reflexivity);
      unfold match_number; cbn [NilEmpty.string_of_uint append] in Q |- *;
      rewrite Q, <- E; f_equal; f_equal;
      exact (DecimalZ.of_to (Z.pos p)).
  - unfold NilZero.string_of_uint.
    destruct (to_uint_head p) as (u & E & Nn & _).
    pose proof (P p true) as Q. rewrite E in Q |- *.
    destruct u; try (exfalso; apply Nn; reflexivity);
      unfold match_number; cbn [NilEmpty.string_of_uint append] in Q |- *;
      rewrite Q, <- E; f_equal; f_equal;
      exact (DecimalZ.of_to (Z.neg p)).
Qed.

(** *** The shape of a printed value *)

Lemma int_repr_head (z : Z) :
  exists c r, int_repr z = String c r /\ (is_digit c = true \/ c = "-"%char).
Proof.
  unfold int_repr. destruct z as [|p|p]; cbn [Z.to_int NilZero.string_of_int].
  - exists "0"%char, "". split; [reflexivity|left; reflexivity].
  - destruct (to_uint_head p) as (u & E & Nn & _). rewrite E.
    destruct u; try (exfalso; apply Nn; reflexivity);
      eexists _, _; (split; [reflexivity | left; reflexivity]).
  - eexists _, _. split; [reflexivity | right; reflexivity].
Qed.

Lemma iterencode_opens (level : nat) (o : json) (rest : string) :
  opens_value (iterencode level o ++ rest) = true.
Proof.
  destruct o as [|[]|z|s|[|x xs]|[|[k v] d]]; try reflexivity.
  cbn [iterencode]. destruct (int_repr_head z) as (c & r & E & [D | ->]);
    rewrite E; [|reflexivity].
  simpl. destruct c as [b0 b1 b2 b3 b4 b5 b6 b7].
  destruct b0, b1, b2, b3, b4, b5, b6, b7; try discriminate D; reflexivity.
Qed.

Lemma skip_ws_opens (s : string) : opens_value s = true -> skip_ws s = s.
Proof.
  destruct s as [|c r]; [reflexivity|]. simpl.
  destruct (is_ws c); [discriminate | reflexivity].
Qed.

Lemma skip_ws_spaces (n : nat) (s : string) :
  skip_ws (spaces n ++ s) = skip_ws s.
Proof. induction n; simpl; auto. Qed.

Lemma skip_ws_newline_indent (level : nat) (s : string) :
  skip_ws (newline_indent level ++ s) = skip_ws s.
Proof. unfold newline_indent. cbn [append skip_ws is_ws]. apply skip_ws_spaces. Qed.

(** *** Dicts without repeated keys *)

Lemma nodup_keys_NoDup (ks : list string) : nodup_keys ks = true <-> NoDup ks.
Proof.
  induction ks as [|k ks IH]; simpl.
  - split; [constructor | reflexivity].
  - rewrite andb_true_iff, negb_true_iff, IH. split.
    + intros [E N]. constructor; [|exact N].
      intros I. assert (X : existsb (String.eqb k) ks = true).
      { apply existsb_exists. exists k. split; [exact I | apply String.eqb_refl]. }
      congruence.
    + intros N. inversion N as [|? ? I N']; subst. split; [|exact N'].
      destruct (existsb (String.eqb k) ks) eqn:X; [|reflexivity].
      apply existsb_exists in X. destruct X as (k' & I' & E).
      apply String.eqb_eq in E. subst k'. contradiction.
Qed.

Lemma dict_set_fresh (k : string) (v : json) (d : dict) :
  ~ In k (map fst d) -> dict_set k v d = (d ++ [(k, v)])%list.
Proof.
  induction d as [|[k' v'] d IH]; simpl; intros N; [reflexivity|].
  destruct (String.eqb_spec k k') as [->|Hne].
  - exfalso. apply N. left. reflexivity.
  - rewrite IH; [reflexivity|]. intros I. apply N. right. exact I.
Qed.

Lemma dict_update_fresh (new acc : dict) :
  NoDup (map fst (acc ++ new)%list) -> dict_update acc new = (acc ++ new)%list.
Proof.
  revert acc. induction new as [|[k v] new IH]; intros acc N; simpl.
  - symmetry. apply List.app_nil_r.
  - unfold dict_update in *. simpl.
    rewrite dict_set_fresh.
    + rewrite IH; rewrite <- List.app_assoc; [reflexivity | exact N].
    + rewrite map_app in N. simpl in N. apply NoDup_remove_2 in N.
      intros I. apply N. apply in_or_app. left. exact I.
Qed.

Lemma dict_of_pairs_nodup (d : dict) :
  nodup_keys (map fst d) = true -> dict_of_pairs d = d.
Proof.
  intros N. unfold dict_of_pairs. rewrite dict_update_fresh; [reflexivity|].
  simpl. apply nodup_keys_NoDup. exact N.
Qed.

Lemma wf_json_obj (d : dict) :
  wf_json (JObj d) =
  nodup_keys (map fst d) && forallb (fun kv => wf_json (snd kv)) d.
Proof.
  cbn [wf_json]. f_equal.
  induction d as [|[k v] d IH]; [reflexivity|]. cbn [forallb snd]. rewrite <- IH.
  reflexivity.
Qed.

(** *** Scanning a printed value *)

Lemma follow_ok_list_tail (L lvl : nat) (xs : list json) (c : ascii) (rest : string) :
  follow_ok (list_tail L xs ++ newline_indent lvl ++ String c rest) = true.
Proof. destruct xs; reflexivity. Qed.

Lemma follow_ok_dict_tail (L lvl : nat) (d : dict) (c : ascii) (rest : string) :
  follow_ok (dict_tail L d ++ newline_indent lvl ++ String c rest) = true.
Proof. destruct d as [|[k v] d]; reflexivity. Qed.

Lemma array_loop_items (L lvl : nat) (rest : string) (xs : list json) :
  forall x acc f,
    Forall scans (x :: xs) ->
    forallb wf_json (x :: xs) = true ->
    (need_list (x :: xs) <= f)%nat ->
    array_loop f (iterencode L x ++ list_tail L xs ++
                  newline_indent lvl ++ String "]" rest) acc
    = POk (JList (acc ++ x :: xs)) rest.
Proof.
  induction xs as [|y ys IH]; intros x acc f Hs Hw Hf;
    inversion Hs as [|? ? Hx Hxs]; subst;
    cbn [forallb] in Hw; apply andb_true_iff in Hw; destruct Hw as [Wx Wxs];
    cbn [need_list] in Hf; destruct f as [|f]; try lia;
    cbn [array_loop].
  - rewrite (Hx Wx); [| lia | apply follow_ok_list_tail].
    cbn [list_tail append]. rewrite skip_ws_newline_indent. reflexivity.
  - rewrite (Hx Wx); [| lia | apply follow_ok_list_tail].
    cbn [list_tail]. rewrite !append_assoc. cbn [append skip_ws is_ws expect Ascii.eqb Bool.eqb].
    rewrite skip_ws_newline_indent, skip_ws_opens by apply iterencode_opens.
    rewrite IH; [| exact Hxs | exact Wxs | cbn [need_list]; lia].
    rewrite <- List.app_assoc. reflexivity.
Qed.

Lemma object_loop_items (L lvl : nat) (rest : string) (d : dict) :
  forall k v acc f,
    Forall (fun kv => scans (snd kv)) ((k, v) :: d) ->
    forallb (fun kv => wf_json (snd kv)) ((k, v) :: d) = true ->
    (need_dict ((k, v) :: d) <= f)%nat ->
    object_loop f (escape_chars k ++ String "034"
                     (String ":" (String " "
                        (iterencode L v ++ dict_tail L d ++
                         newline_indent lvl ++ String "}" rest)))) acc
    = POk (JObj (dict_of_pairs (acc ++ (k, v) :: d))) rest.
Proof.
  induction d as [|[k' v'] d IH]; intros k v acc f Hs Hw Hf;
    inversion Hs as [|? ? Hx Hxs]; subst; cbn [snd] in Hx;
    cbn [forallb snd] in Hw; apply andb_true_iff in Hw; destruct Hw as [Wx Wxs];
    cbn [need_dict] in Hf; destruct f as [|f]; try lia;
    cbn [object_loop]; rewrite scanstring_escape_chars;
    cbn [append skip_ws is_ws expect Ascii.eqb Bool.eqb];
    rewrite skip_ws_opens by apply iterencode_opens.
  - rewrite (Hx Wx); [| lia | apply follow_ok_dict_tail].
    cbn [dict_tail append]. rewrite skip_ws_newline_indent. reflexivity.
  - rewrite (Hx Wx); [| lia | apply follow_ok_dict_tail].
    cbn [dict_tail]. unfold encode_basestring_ascii.
    rewrite !append_assoc.
    cbn [append skip_ws is_ws expect Ascii.eqb Bool.eqb].
    rewrite skip_ws_newline_indent.
    cbn [append skip_ws is_ws expect Ascii.eqb Bool.eqb].
    rewrite !append_assoc. cbn [append].
    rewrite IH; [| exact Hxs | exact Wxs | cbn [need_dict]; lia].
    rewrite <- List.app_assoc. reflexivity.
Qed.

Lemma scan_once_int (z : Z) (f : nat) (rest : string) :
  follow_ok rest = true ->
  scan_once (S f) (int_repr z ++ rest) = POk (JInt z) rest.
Proof.
  intros H. pose proof (match_number_int_repr z rest H) as M.
  destruct (int_repr_head z) as (c & r & E & D). rewrite E in M |- *.
  cbn [append scan_once] in M |- *.
  assert (X : Ascii.eqb c "034" = false /\ Ascii.eqb c "{" = false /\
              Ascii.eqb c "[" = false /\ Ascii.eqb "n" c = false /\
              Ascii.eqb "t" c = false /\ Ascii.eqb "f" c = false).
  { destruct D as [D | ->]; [|repeat split; reflexivity].
    destruct c as [b0 b1 b2 b3 b4 b5 b6 b7].
    destruct b0, b1, b2, b3, b4, b5, b6, b7; try discriminate D;
      repeat split; reflexivity. }
  destruct X as (X1 & X2 & X3 & X4 & X5 & X6).
  rewrite X1, X2, X3. unfold scan_atom. cbn [strip_prefix].
  rewrite X4, X5, X6, M. reflexivity.
Qed.

Theorem scan_once_iterencode (o : json) : scans o.
Proof.
  induction o as [| b | z | s | l IH | d IH] using json_nested_ind;
    intros W level fuel rest Hf Hr;
    (destruct fuel as [|f]; [cbn [need] in Hf; lia |]).
  - reflexivity.
  - destruct b; reflexivity.
  - apply scan_once_int. exact Hr.
  - cbn [iterencode]. unfold encode_basestring_ascii.
    cbn [append scan_once Ascii.eqb Bool.eqb]. rewrite append_assoc.
    cbn [append]. rewrite scanstring_escape_chars. reflexivity.
  - destruct l as [|x xs]; [reflexivity|].
    change (iterencode level (JList (x :: xs))) with
      ("[" ++ newline_indent (S level) ++ iterencode (S level) x ++
       list_tail (S level) xs ++ newline_indent level ++ "]").
    rewrite !append_assoc.
    cbn [append scan_once Ascii.eqb Bool.eqb].
    rewrite skip_ws_newline_indent, skip_ws_opens by apply iterencode_opens.
    pose proof (iterencode_opens (S level) x
                  (list_tail (S level) xs ++ newline_indent level ++ String "]" rest)) as O.
    destruct (iterencode (S level) x ++ list_tail (S level) xs ++
              newline_indent level ++ String "]" rest) as [|c r] eqn:E;
      [discriminate O|].
    cbn [expect]. cbn [opens_value] in O.
    destruct (Ascii.eqb c "]"); [rewrite !andb_false_r in O; discriminate O|].
    rewrite <- E.
    apply (array_loop_items (S level) level rest xs x [] f IH W).
    change (need (JList (x :: xs))) with (S (need_list (x :: xs))) in Hf. lia.
  - destruct d as [|[k v] d]; [reflexivity|].
    rewrite wf_json_obj in W. apply andb_true_iff in W. destruct W as [N W].
    change (iterencode level (JObj ((k, v) :: d))) with
      ("{" ++ newline_indent (S level) ++ encode_basestring_ascii k ++ ": " ++
       iterencode (S level) v ++ dict_tail (S level) d ++
       newline_indent level ++ "}").
    unfold encode_basestring_ascii.
    rewrite !append_assoc.
    cbn [append scan_once Ascii.eqb Bool.eqb].
    rewrite skip_ws_newline_indent.
    cbn [append skip_ws is_ws expect Ascii.eqb Bool.eqb].
    rewrite !append_assoc. cbn [append].
    rewrite (object_loop_items (S level) level rest d k v [] f IH W).
    + cbn [List.app]. rewrite dict_of_pairs_nodup by exact N. reflexivity.
    + change (need (JObj ((k, v) :: d))) with (S (need_dict ((k, v) :: d))) in Hf.
      lia.
Qed.

(** *** The fuel a printed value needs *)

Lemma need_list_length (L : nat) (xs : list json) :
  Forall short xs ->
  (need_list xs <= 2 * String.length (list_tail L xs))%nat.
Proof.
  induction 1 as [|y ys Hy _ IH]; [apply Nat.le_0_l|].
  cbn [need_list list_tail]. rewrite !length_append. specialize (Hy L).
  cbn [String.length append]. lia.
Qed.

Lemma need_dict_length (L : nat) (d : dict) :
  Forall (fun kv => short (snd kv)) d ->
  (need_dict d <= 2 * String.length (dict_tail L d))%nat.
Proof.
  induction 1 as [|[k v] d Hy _ IH]; [apply Nat.le_0_l|].
  cbn [need_dict dict_tail]. rewrite !length_append. specialize (Hy L).
  cbn [String.length append snd] in *. lia.
Qed.

Lemma need_le_length (o : json) : short o.
Proof.
  induction o as [| b | z | s | l IH | d IH] using json_nested_ind; intros level.
  - cbn. lia.
  - destruct b; cbn; lia.
  - cbn [need iterencode]. destruct (int_repr_head z) as (c & r & E & _).
    rewrite E. cbn [String.length]. lia.
  - cbn [need iterencode]. unfold encode_basestring_ascii. cbn [String.length]. lia.
  - destruct l as [|x xs]; [cbn; lia|].
    change (iterencode level (JList (x :: xs))) with
      ("[" ++ newline_indent (S level) ++ iterencode (S level) x ++
       list_tail (S level) xs ++ newline_indent level ++ "]").
    change (need (JList (x :: xs))) with (S (S (need x + need_list xs))).
    inversion IH as [|? ? Hx Hxs]; subst.
    pose proof (need_list_length (S level) xs Hxs). specialize (Hx (S level)).
    rewrite !length_append. cbn [String.length append]. lia.
  - destruct d as [|[k v] d]; [cbn; lia|].
    change (iterencode level (JObj ((k, v) :: d))) with
      ("{" ++ newline_indent (S level) ++ encode_basestring_ascii k ++ ": " ++
       iterencode (S level) v ++ dict_tail (S level) d ++
       newline_indent level ++ "}").
    change (need (JObj ((k, v) :: d))) with (S (S (need v + need_dict d))).
    inversion IH as [|? ? Hx Hxs]; subst.
    pose proof (need_dict_length (S level) d Hxs). specialize (Hx (S level)).
    cbn [snd] in Hx.
    rewrite !length_append. cbn [String.length append]. lia.
Qed.

Theorem json_loads_dumps (o : json) :
  wf_json o = true -> json_loads (json_dumps o) = Ok o.
Proof.
  intros W. unfold json_loads, json_dumps.
  rewrite skip_ws_opens
    by (rewrite <- (append_nil_r (iterencode 0 o)); apply iterencode_opens).
  rewrite <- (append_nil_r (iterencode 0 o)) at 2.
  rewrite (scan_once_iterencode o W); [reflexivity | | reflexivity].
  pose proof (need_le_length o 0%nat). lia.
Qed.

(** *** Lookup after assignment and update *)

Lemma dict_get_set_same (k : string) (v : json) (d : dict) :
  dict_get k (dict_set k v d) = Some v.
Proof.
  induction d as [|[k' v'] d IH]; simpl.
  - rewrite String.eqb_refl. reflexivity.
  - destruct (String.eqb k k') eqn:E; simpl; rewrite E; [reflexivity | exact IH].
Qed.

Lemma dict_get_set_other (k k' : string) (v : json) (d : dict) :
  k <> k' -> dict_get k' (dict_set k v d) = dict_get k' d.
Proof.
  intros N. induction d as [|[k0 v0] d IH]; simpl.
  - destruct (String.eqb_spec k' k); [congruence | reflexivity].
  - destruct (String.eqb_spec k k0) as [->|]; simpl.
    + destruct (String.eqb_spec k' k0); [congruence | reflexivity].
    + rewrite IH. reflexivity.
Qed.

Lemma dict_get_None (k : string) (d : dict) :
  dict_get k d = None <-> ~ In k (map fst d).
Proof.
  induction d as [|[k' v'] d IH]; simpl; [tauto|].
  destruct (String.eqb_spec k k') as [->|N].
  - split; [discriminate | intros H; exfalso; apply H; left; reflexivity].
  - rewrite IH. split; intros H; [intros [E | I]; [congruence | tauto] | tauto].
Qed.

(** Keys the argument of [update] does not hold keep their value. *)
Lemma dict_get_update_absent (k : string) (new d : dict) :
  dict_get k new = None -> dict_get k (dict_update d new) = dict_get k d.
Proof.
  revert d. induction new as [|[k' v'] new IH]; intros d H; [reflexivity|].
  simpl in H. destruct (String.eqb_spec k k') as [->|N]; [discriminate|].
  unfold dict_update in *. simpl. rewrite IH by exact H.
  apply dict_get_set_other. congruence.
Qed.

(** Keys the argument of [update] holds take its value. *)
Lemma dict_get_update_present (k : string) (v : json) (new d : dict) :
  NoDup (map fst new) ->
  dict_get k new = Some v -> dict_get k (dict_update d new) = Some v.
Proof.
  revert d. induction new as [|[k' v'] new IH]; intros d N H; [discriminate|].
  simpl in H, N. inversion N as [|? ? N1 N2]; subst.
  unfold dict_update in *. simpl.
  destruct (String.eqb_spec k k') as [->|Hne].
  - inversion H; subst.
    change (dict_get k' (dict_update (dict_set k' v d) new) = Some v).
    rewrite dict_get_update_absent by (apply dict_get_None; exact N1).
    apply dict_get_set_same.
  - apply IH; assumption.
Qed.

(** *** The scanner builds well-formed dicts *)

Lemma dict_set_keys (k : string) (v : json) (d : dict) (k' : string) :
  In k' (map fst (dict_set k v d)) <-> k' = k \/ In k' (map fst d).
Proof.
  induction d as [|[k0 v0] d IH]; simpl.
  - intuition congruence.
  - destruct (String.eqb_spec k k0) as [->|N]; simpl.
    + intuition congruence.
    + rewrite IH. intuition congruence.
Qed.

Lemma dict_set_NoDup (k : string) (v : json) (d : dict) :
  NoDup (map fst d) -> NoDup (map fst (dict_set k v d)).
Proof.
  induction d as [|[k0 v0] d IH]; simpl; intros N.
  - constructor; [intros [] | constructor].
  - inversion N as [|? ? N1 N2]; subst.
    destruct (String.eqb_spec k k0) as [->|Hne]; simpl.
    + constructor; assumption.
    + constructor; [|apply IH; exact N2].
      rewrite dict_set_keys. intros [E | I]; [congruence | contradiction].
Qed.

Lemma dict_set_values (P : json -> bool) (k : string) (v : json) (d : dict) :
  P v = true -> forallb (fun kv => P (snd kv)) d = true ->
  forallb (fun kv => P (snd kv)) (dict_set k v d) = true.
Proof.
  intros Hv. induction d as [|[k0 v0] d IH]; simpl; intros H.
  - rewrite Hv. reflexivity.
  - apply andb_true_iff in H. destruct H as [H0 H1].
    destruct (String.eqb k k0); simpl.
    + rewrite Hv, H1. reflexivity.
    + rewrite H0, IH by exact H1. reflexivity.
Qed.

Lemma dict_update_wf (new d : dict) :
  wf_json (JObj d) = true -> wf_json (JObj new) = true ->
  wf_json (JObj (dict_update d new)) = true.
Proof.
  rewrite !wf_json_obj, !andb_true_iff, !nodup_keys_NoDup.
  intros [Nd Vd] [_ Vn]. revert d Nd Vd.
  induction new as [|[k v] new IH]; intros d Nd Vd; [tauto|].
  simpl in Vn. apply andb_true_iff in Vn. destruct Vn as [Vv Vn].
  unfold dict_update in *. simpl. apply IH.
  - exact Vn.
  - apply dict_set_NoDup. exact Nd.
  - apply (dict_set_values wf_json); assumption.
Qed.

Lemma dict_of_pairs_snoc (acc : list (string * json)) (k : string) (v : json) :
  dict_of_pairs (acc ++ [(k, v)]) = dict_set k v (dict_of_pairs acc).
Proof. unfold dict_of_pairs, dict_update. rewrite fold_left_app. reflexivity. Qed.

Lemma scan_atom_wf (s : string) (v : json) (r : string) :
  scan_atom s = POk v r -> wf_json v = true.
Proof.
  unfold scan_atom.
  destruct (strip_prefix "null" s); [intros H; inversion H; reflexivity|].
  destruct (strip_prefix "true" s); [intros H; inversion H; reflexivity|].
  destruct (strip_prefix "false" s); [intros H; inversion H; reflexivity|].
  assert (M : forall neg t, match_integer neg t = POk v r -> wf_json v = true).
  { intros neg t. unfold match_integer. destruct t as [|c t]; [discriminate|].
    destruct (is_digit c); [|discriminate].
    destruct (if Ascii.eqb c "0" then _ else _) as [u rest].
    destruct (float_tail rest); [discriminate|].
    intros H; inversion H; reflexivity. }
  destruct (match_number s) eqn:E.
  - intros H; inversion H; subst. unfold match_number in E.
    destruct s as [|c t]; [discriminate|].
    destruct (Ascii.eqb c "-") eqn:Ec.
    + apply Ascii.eqb_eq in Ec. subst c. apply (M _ _ E).
    + assert (E' : match_integer false (String c t) = POk v r).
      { destruct c as [b0 b1 b2 b3 b4 b5 b6 b7].
        destruct b0, b1, b2, b3, b4, b5, b6, b7; try exact E; discriminate Ec. }
      apply (M _ _ E').
  - destruct (_ || _); discriminate.
  - discriminate.
  - discriminate.
Qed.

Lemma scanners_wf (fuel : nat) :
  (forall s v r, scan_once fuel s = POk v r -> wf_json v = true) /\
  (forall s acc v r,
      wf_json (JObj (dict_of_pairs acc)) = true ->
      object_loop fuel s acc = POk v r -> wf_json v = true) /\
  (forall s acc v r,
      forallb wf_json acc = true ->
      array_loop fuel s acc = POk v r -> wf_json v = true).
Proof.
  induction fuel as [|f (IHs & IHo & IHa)];
    [repeat split; intros; discriminate|].
  split; [|split].
  - intros s v r. cbn [scan_once]. destruct s as [|c t]; [discriminate|].
    destruct (Ascii.eqb c "034").
    { destruct (scanstring t); try discriminate.
      intros H; inversion H; reflexivity. }
    destruct (Ascii.eqb c "{").
    { destruct (expect "}" (skip_ws t)); [intros H; inversion H; reflexivity|].
      destruct (expect "034" (skip_ws t)); [|discriminate].
      apply IHo. reflexivity. }
    destruct (Ascii.eqb c "[").
    { destruct (expect "]" (skip_ws t)); [intros H; inversion H; reflexivity|].
      apply IHa. reflexivity. }
    apply scan_atom_wf.
  - intros s acc v r Wacc. cbn [object_loop].
    destruct (scanstring s) as [key s1| | |]; try discriminate.
    destruct (expect ":" (skip_ws s1)) as [s2|]; [|discriminate].
    destruct (scan_once f (skip_ws s2)) as [value s3| | |] eqn:E; try discriminate.
    apply IHs in E.
    assert (W' : wf_json (JObj (dict_of_pairs (acc ++ [(key, value)]))) = true).
    { rewrite dict_of_pairs_snoc.
      rewrite wf_json_obj, andb_true_iff, nodup_keys_NoDup in Wacc |- *.
      destruct Wacc as [N V]. split.
      - apply dict_set_NoDup. exact N.
      - apply (dict_set_values wf_json); assumption. }
    destruct (expect "}" (skip_ws s3)) as [s4|].
    { intros H; inversion H; subst. exact W'. }
    destruct (expect "," (skip_ws s3)) as [s4|]; [|discriminate].
    destruct (expect "034" (skip_ws s4)) as [s5|]; [|discriminate].
    apply IHo. exact W'.
  - intros s acc v r Wacc. cbn [array_loop].
    destruct (scan_once f s) as [value s1| | |] eqn:E; try discriminate.
    apply IHs in E.
    assert (W' : forallb wf_json (acc ++ [value]) = true).
    { rewrite forallb_app, Wacc. simpl. rewrite E. reflexivity. }
    destruct (expect "]" (skip_ws s1)) as [s2|].
    { intros H; inversion H; subst. exact W'. }
    destruct (expect "," (skip_ws s1)) as [s2|]; [|discriminate].
    apply IHa. exact W'.
Qed.

Theorem json_loads_wf (s : string) (v : json) :
  json_loads s = Ok v -> wf_json v = true.
Proof.
  unfold json_loads.
  destruct (scan_once _ _) as [o rest| | |] eqn:E; try discriminate.
  destruct (skip_ws rest); [|discriminate].
  intros H; inversion H; subst.
  apply (proj1 (scanners_wf _) _ _ _ E).
Qed.

(** *** The fuel of [json_loads] never ends *)

Lemma skip_ws_length (s : string) :
  (String.length (skip_ws s) <= String.length s)%nat.
Proof.
  induction s as [|c s IH]; [apply Nat.le_refl|].
  cbn [skip_ws]. destruct (is_ws c); cbn [String.length]; lia.
Qed.

Lemma expect_length (c : ascii) (s r : string) :
  expect c s = Some r -> String.length s = S (String.length r).
Proof.
  destruct s as [|a s]; [discriminate|]. cbn [expect].
  destruct (Ascii.eqb a c); [|discriminate].
  intros H; inversion H; reflexivity.
Qed.

Lemma strip_prefix_length (p s r : string) :
  strip_prefix p s = Some r ->
  String.length s = (String.length p + String.length r)%nat.
Proof.
  revert s. induction p as [|a p IH]; intros s; cbn [strip_prefix].
  - intros H; inversion H; reflexivity.
  - destruct s as [|b s]; [discriminate|].
    destruct (Ascii.eqb a b); [|discriminate].
    intros H. cbn [String.length]. rewrite (IH s H). reflexivity.
Qed.

Lemma pmap_POk {A B} (f : A -> B) (x : presult A) (b : B) (r : string) :
  pmap f x = POk b r -> exists a, x = POk a r.
Proof. destruct x; try discriminate. intros H; inversion H; subst. eauto. Qed.

Lemma scanstring_length (n : nat) :
  forall s v r,
    (String.length s <= n)%nat ->
    scanstring s = POk v r -> (String.length r < String.length s)%nat.
Proof.
  induction n as [|n IH]; intros s v r Hn; destruct s as [|c s];
    try discriminate; cbn [String.length] in Hn; try lia.
  cbn [scanstring].
  destruct (Ascii.eqb c "034").
  { intros H; inversion H; subst. cbn [String.length]. lia. }
  destruct (Ascii.eqb c "\").
  - destruct s as [|e s]; [discriminate|].
    destruct (Ascii.eqb e "u").
    + destruct s as [|h1 [|h2 [|h3 [|h4 s]]]]; try discriminate.
      destruct (hex4 h1 h2 h3 h4) as [k|]; [|discriminate].
      destruct (k <? 256)%N; [|discriminate].
      intros H. apply pmap_POk in H. destruct H as [a0 H].
      apply IH in H; cbn [String.length] in *; lia.
    + destruct (unescape e); [|discriminate].
      intros H. apply pmap_POk in H. destruct H as [a0 H].
      apply IH in H; cbn [String.length] in *; lia.
  - destruct (N_of_ascii c <? 32)%N; [discriminate|].
    intros H. apply pmap_POk in H. destruct H as [a0 H].
    apply IH in H; cbn [String.length] in *; lia.
Qed.

Lemma lex_digits_length (s : string) :
  (String.length (snd (lex_digits s)) <= String.length s)%nat.
Proof.
  induction s as [|c s IH]; [apply Nat.le_refl|].
  cbn [lex_digits]. destruct (digit_of c).
  - destruct (lex_digits s) as [u0 rest]. cbn [snd String.length] in *. lia.
  - cbn [snd]. apply Nat.le_refl.
Qed.

Lemma match_integer_length (neg : bool) (s : string) (v : json) (r : string) :
  match_integer neg s = POk v r -> (String.length r < String.length s)%nat.
Proof.
  unfold match_integer. destruct s as [|c s]; [discriminate|].
  destruct (is_digit c) eqn:D; [|discriminate].
  destruct (Ascii.eqb c "0").
  - destruct (float_tail s); [discriminate|].
    intros H; inversion H; subst. cbn [String.length]. lia.
  - pose proof (lex_digits_length (String c s)) as L.
    assert (X : exists d, digit_of c = Some d).
    { destruct c as [b0 b1 b2 b3 b4 b5 b6 b7].
      destruct b0, b1, b2, b3, b4, b5, b6, b7; try discriminate D;
        eexists; reflexivity. }
    destruct X as [d X]. cbn [lex_digits] in L |- *. rewrite X in L |- *.
    pose proof (lex_digits_length s) as L'.
    destruct (lex_digits s) as [u0 rest]. cbn [snd] in *.
    destruct (float_tail rest); [discriminate|].
    intros H; inversion H; subst. cbn [String.length]. lia.
Qed.

Lemma scan_atom_length (s : string) (v : json) (r : string) :
  scan_atom s = POk v r -> (String.length r < String.length s)%nat.
Proof.
  unfold scan_atom.
  destruct (strip_prefix "null" s) eqn:E1.
  { intros H; inversion H; subst. apply strip_prefix_length in E1.
    cbn [String.length] in E1. lia. }
  destruct (strip_prefix "true" s) eqn:E2.
  { intros H; inversion H; subst. apply strip_prefix_length in E2.
    cbn [String.length] in E2. lia. }
  destruct (strip_prefix "false" s) eqn:E3.
  { intros H; inversion H; subst. apply strip_prefix_length in E3.
    cbn [String.length] in E3. lia. }
  destruct (match_number s) as [v' r'| | |] eqn:E; try discriminate.
  - intros H; inversion H; subst. unfold match_number in E.
    destruct s as [|c t]; [discriminate|].
    destruct (Ascii.eqb c "-") eqn:Ec.
    + apply Ascii.eqb_eq in Ec. subst c. apply match_integer_length in E.
      cbn [String.length]. lia.
    + assert (E' : match_integer false (String c t) = POk v r).
      { destruct c as [b0 b1 b2 b3 b4 b5 b6 b7].
        destruct b0, b1, b2, b3, b4, b5, b6, b7; try exact E; discriminate Ec. }
      apply (match_integer_length _ _ _ _ E').
  - destruct (_ || _); discriminate.
Qed.

Lemma scan_atom_fuel (s : string) : scan_atom s <> PFuel.
Proof.
  unfold scan_atom.
  destruct (strip_prefix "null" s); [discriminate|].
  destruct (strip_prefix "true" s); [discriminate|].
  destruct (strip_prefix "false" s); [discriminate|].
  assert (M : forall neg t, match_integer neg t <> PFuel).
  { intros neg t. unfold match_integer. destruct t as [|c t]; [discriminate|].
    destruct (is_digit c); [|discriminate].
    destruct (if Ascii.eqb c "0" then _ else _) as [u0 rest].
    destruct (float_tail rest); discriminate. }
  destruct (match_number s) eqn:E; try discriminate.
  - destruct (_ || _); discriminate.
  - exfalso. unfold match_number in E. destruct s as [|c t].
    + apply (M false "" E).
    + destruct (Ascii.eqb c "-") eqn:Ec.
      * apply Ascii.eqb_eq in Ec. subst c. apply (M _ _ E).
      * assert (E' : match_integer false (String c t) = PFuel).
        { destruct c as [b0 b1 b2 b3 b4 b5 b6 b7].
          destruct b0, b1, b2, b3, b4, b5, b6, b7; try exact E; discriminate Ec. }
        apply (M _ _ E').
Qed.

Lemma scanstring_fuel (s : string) : scanstring s <> PFuel.
Proof.
  assert (G : forall n s, (String.length s <= n)%nat -> scanstring s <> PFuel).
  { clear s. induction n as [|n IH]; intros s Hn; destruct s as [|c s];
      try discriminate; cbn [String.length] in Hn; try lia.
    assert (P : forall (f : string -> string) t,
               (String.length t <= n)%nat -> pmap f (scanstring t) <> PFuel).
    { intros f t Ht. specialize (IH t Ht).
      destruct (scanstring t); try discriminate. contradiction. }
    cbn [scanstring].
    destruct (Ascii.eqb c "034"); [discriminate|].
    destruct (Ascii.eqb c "\").
    - destruct s as [|e s]; [discriminate|].
      destruct (Ascii.eqb e "u").
      + destruct s as [|h1 [|h2 [|h3 [|h4 s]]]]; try discriminate.
        destruct (hex4 h1 h2 h3 h4) as [k|]; [|discriminate].
        destruct (k <? 256)%N; [|discriminate].
        apply P. cbn [String.length] in Hn. lia.
      + destruct (unescape e); [|discriminate].
        apply P. cbn [String.length] in Hn. lia.
    - destruct (N_of_ascii c <? 32)%N; [discriminate|].
      apply P. lia. }
  apply (G (String.length s)). apply Nat.le_refl.
Qed.

(** With more than twice the length of the text as fuel, no scanner ends
    by lack of fuel, and a scanner that succeeds has consumed a character. *)
Lemma scanners_fuel (fuel : nat) :
  (forall s, (2 * String.length s < fuel)%nat ->
             scan_once fuel s <> PFuel /\
             forall v r, scan_once fuel s = POk v r ->
                         (String.length r < String.length s)%nat) /\
  (forall s acc, (2 * String.length s + 1 < fuel)%nat ->
                 object_loop fuel s acc <> PFuel /\
                 forall v r, object_loop fuel s acc = POk v r ->
                             (String.length r < String.length s)%nat) /\
  (forall s acc, (2 * String.length s + 1 < fuel)%nat ->
                 array_loop fuel s acc <> PFuel /\
                 forall v r, array_loop fuel s acc = POk v r ->
                             (String.length r <= String.length s)%nat).
Proof.
  induction fuel as [|f (IHs & IHo & IHa)]; [repeat split; intros; lia|].
  split; [|split].
  - intros s Hf. cbn [scan_once]. destruct s as [|c t]; [split; discriminate|].
    cbn [String.length] in Hf.
    destruct (Ascii.eqb c "034").
    { pose proof (scanstring_fuel t) as F.
      destruct (scanstring t) as [a0 r0| | |] eqn:E; try contradiction;
        (split; [discriminate|]); try discriminate.
      intros v r H; inversion H; subst.
      apply (scanstring_length _ _ _ _ (Nat.le_refl _)) in E.
      cbn [String.length]. lia. }
    pose proof (skip_ws_length t) as W.
    destruct (Ascii.eqb c "{").
    { destruct (expect "}" (skip_ws t)) as [r'|] eqn:E1.
      { split; [discriminate|]. intros v r H; inversion H; subst.
        apply expect_length in E1. cbn [String.length]. lia. }
      destruct (expect "034" (skip_ws t)) as [r'|] eqn:E2;
        [|split; discriminate].
      apply expect_length in E2.
      destruct (IHo r' [] ltac:(lia)) as [F L]. split; [exact F|].
      intros v r H. apply L in H. cbn [String.length]. lia. }
    destruct (Ascii.eqb c "[").
    { destruct (expect "]" (skip_ws t)) as [r'|] eqn:E1.
      { split; [discriminate|]. intros v r H; inversion H; subst.
        apply expect_length in E1. cbn [String.length]. lia. }
      destruct (IHa (skip_ws t) [] ltac:(lia)) as [F L]. split; [exact F|].
      intros v r H. apply L in H. cbn [String.length]. lia. }
    split; [apply scan_atom_fuel|].
    intros v r H. apply scan_atom_length in H. exact H.
  - intros s acc Hf. cbn [object_loop].
    pose proof (scanstring_fuel s) as F0.
    destruct (scanstring s) as [key s1| | |] eqn:E0; try contradiction;
      try (split; discriminate).
    apply (scanstring_length _ _ _ _ (Nat.le_refl _)) in E0.
    pose proof (skip_ws_length s1) as W1.
    destruct (expect ":" (skip_ws s1)) as [s2|] eqn:E1; [|split; discriminate].
    apply expect_length in E1.
    pose proof (skip_ws_length s2) as W2.
    destruct (IHs (skip_ws s2) ltac:(lia)) as [F L].
    destruct (scan_once f (skip_ws s2)) as [value s3| | |] eqn:E2;
      try contradiction; try (split; discriminate).
    specialize (L value s3 eq_refl).
    pose proof (skip_ws_length s3) as W3.
    destruct (expect "}" (skip_ws s3)) as [s4|] eqn:E3.
    { split; [discriminate|]. intros v r H; inversion H; subst.
      apply expect_length in E3. lia. }
    destruct (expect "," (skip_ws s3)) as [s4|] eqn:E4; [|split; discriminate].
    apply expect_length in E4.
    pose proof (skip_ws_length s4) as W4.
    destruct (expect "034" (skip_ws s4)) as [s5|] eqn:E5; [|split; discriminate].
    apply expect_length in E5.
    destruct (IHo s5 (acc ++ [(key, value)])%list ltac:(lia)) as [F' L'].
    split; [exact F'|]. intros v r H. apply L' in H. lia.
  - intros s acc Hf. cbn [array_loop].
    destruct (IHs s ltac:(lia)) as [F L].
    destruct (scan_once f s) as [value s1| | |] eqn:E2;
      try contradiction; try (split; discriminate).
    specialize (L value s1 eq_refl).
    pose proof (skip_ws_length s1) as W1.
    destruct (expect "]" (skip_ws s1)) as [s2|] eqn:E3.
    { split; [discriminate|]. intros v r H; inversion H; subst.
      apply expect_length in E3. lia. }
    destruct (expect "," (skip_ws s1)) as [s2|] eqn:E4; [|split; discriminate].
    apply expect_length in E4.
    pose proof (skip_ws_length s2) as W2.
    destruct (IHa (skip_ws s2) (acc ++ [value])%list ltac:(lia)) as [F' L'].
    split; [exact F'|]. intros v r H. apply L' in H. lia.
Qed.

(** [json_loads] gives itself fuel enough for every text. *)
Theorem json_loads_fuel (s : string) :
  scan_once (2 * String.length s + 2) (skip_ws s) <> PFuel.
Proof.
  apply (proj1 (scanners_fuel _)). pose proof (skip_ws_length s). lia.
Qed.

(* ------------------------------------------------------------------ *)
(** ** The token lifecycle *)

Lemma posts_app (a b : list Event) : posts (a ++ b) = (posts a ++ posts b)%list.
Proof.
  induction a as [|e a IH]; [reflexivity|].
  destruct e; simpl; rewrite IH; reflexivity.
Qed.

Lemma writes_app (a b : list Event) : writes (a ++ b) = (writes a ++ writes b)%list.
Proof.
  induction a as [|e a IH]; [reflexivity|].
  destruct e; simpl; rewrite IH; reflexivity.
Qed.

Local Arguments json_dumps : simpl never.
Local Arguments json_loads : simpl never.
Local Arguments dict_update : simpl never.
Local Arguments dict_get : simpl never.
Local Arguments String.eqb : simpl never.

Lemma answer_posted (w : World) (rq : Request) (l : string) :
  endpoint w (posts ((trace w ++ [EvPrint l]) ++ [EvPost rq])) = answer w rq.
Proof.
  unfold answer. rewrite !posts_app. simpl. rewrite List.app_nil_r. reflexivity.
Qed.

Lemma refresh_success (self : AuthManager) (w : World) (d new : dict)
      (r : json) (resp : Response) :
  tokens self = JObj d ->
  dict_get "refresh_token" d = Some r ->
  answer w (refresh_request self r) = Some resp ->
  raise_for_status resp = Ok tt ->
  json_loads (resp_text resp) = Ok (JObj new) ->
  refresh_access_token (self, w)
  = (py_getitem (JObj (dict_update d new)) "access_token",
     (with_tokens (JObj (dict_update d new)) self,
      refreshed w (refresh_request self r) (JObj (dict_update d new)))).
Proof.
  intros Ht Hr Ha Hs Hj.
  destruct self as [st cid sec uri sc sta tk]. simpl in Ht. subst tk.
  unfold refresh_access_token, update_tokens, _save_tokens, bind, io, self_get,
    gets, lift, print, requests_post, set_tokens, modify, mkdir_parents,
    json_dump, resp_json.
  cbn [fst snd tokens client_id client_secret py_getitem log trace environ files
       stdin endpoint].
  rewrite Hr.
  change (mkRequest TOKEN_URL _) with
    (refresh_request (mkAuthManager st cid sec uri sc sta (JObj d)) r).
  rewrite answer_posted, Ha, Hs, Hj.
  cbn [py_update with_tokens tokens fst snd settings client_id client_secret
       redirect_uri scopes state bind io log trace environ files stdin endpoint].
  unfold refreshed, log.
  cbn [with_tokens tokens settings client_id client_secret redirect_uri scopes
       state trace environ files stdin endpoint].
  rewrite <- !List.app_assoc. reflexivity.
Qed.

Lemma refresh_http_error (self : AuthManager) (w : World) (d : dict)
      (r : json) (resp : Response) (e : exn) :
  tokens self = JObj d ->
  dict_get "refresh_token" d = Some r ->
  answer w (refresh_request self r) = Some resp ->
  raise_for_status resp = Raise e ->
  refresh_access_token (self, w)
  = (Raise e, (self, posted w (refresh_request self r))).
Proof.
  intros Ht Hr Ha Hs.
  destruct self as [st cid sec uri sc sta tk]. simpl in Ht. subst tk.
  unfold refresh_access_token, update_tokens, _save_tokens, bind, io, self_get,
    gets, lift, print, requests_post, set_tokens, modify, mkdir_parents,
    json_dump, resp_json.
  cbn [fst snd tokens client_id client_secret py_getitem log trace environ files
       stdin endpoint].
  rewrite Hr.
  change (mkRequest TOKEN_URL _) with
    (refresh_request (mkAuthManager st cid sec uri sc sta (JObj d)) r).
  rewrite answer_posted, Ha, Hs.
  unfold posted, log. cbn [trace environ files stdin endpoint].
  rewrite <- !List.app_assoc. reflexivity.
Qed.

Ltac solve_posts :=
  unfold log;
  cbn [with_tokens tokens fst snd settings client_id client_secret
       redirect_uri scopes state bind io trace environ files stdin endpoint];
  rewrite !posts_app; simpl; rewrite ?List.app_nil_r; reflexivity.

(** Whatever the endpoint answers, a refresh that finds a refresh token
    posts one request. *)
Lemma refresh_posts_once (self : AuthManager) (w : World) (d : dict) (r : json) :
  tokens self = JObj d ->
  dict_get "refresh_token" d = Some r ->
  posts (trace (snd (snd (refresh_access_token (self, w)))))
  = (posts (trace w) ++ [refresh_request self r])%list.
Proof.
  intros Ht Hr.
  destruct self as [st cid sec uri sc sta tk]. simpl in Ht. subst tk.
  unfold refresh_access_token, update_tokens, _save_tokens, bind, io, self_get,
    gets, lift, print, requests_post, set_tokens, modify, mkdir_parents,
    json_dump, resp_json.
  cbn [fst snd tokens client_id client_secret py_getitem log trace environ files
       stdin endpoint].
  rewrite Hr.
  change (mkRequest TOKEN_URL _) with
    (refresh_request (mkAuthManager st cid sec uri sc sta (JObj d)) r).
  rewrite answer_posted.
  destruct (answer w _) as [resp|]; [|solve_posts].
  destruct (raise_for_status resp) as [[]|e]; [|solve_posts].
  destruct (json_loads (resp_text resp)) as [new|e]; [|solve_posts].
  cbn [tokens fst snd].
  destruct (py_update (JObj d) new) as [merged [[]|e]]; solve_posts.
Qed.

Lemma ensure_cached (self : AuthManager) (w : World) (d : dict) (v : json) :
  tokens self = JObj d ->
  dict_get "access_token" d = Some v ->
  truthy v = true ->
  ensure_access_token (self, w) = (Ok v, (self, w)).
Proof.
  intros Ht Hv Tv.
  unfold ensure_access_token, bind, self_get, gets, lift, ret.
  cbn [fst snd]. rewrite Ht.
  assert (Td : truthy (JObj d) = true) by (destruct d; [discriminate Hv | reflexivity]).
  rewrite Td. cbn [negb py_get]. rewrite Hv, Tv. reflexivity.
Qed.

Lemma ensure_goes_to_refresh (self : AuthManager) (w : World) (d : dict) :
  tokens self = JObj d ->
  d <> [] ->
  match dict_get "access_token" d with
  | Some v => truthy v = false
  | None => True
  end ->
  ensure_access_token (self, w) = refresh_access_token (self, w).
Proof.
  intros Ht Hd Hv.
  unfold ensure_access_token, bind, self_get, gets, lift, ret.
  cbn [fst snd]. rewrite Ht.
  assert (Td : truthy (JObj d) = true) by (destruct d; [contradiction | reflexivity]).
  rewrite Td. cbn [negb py_get].
  destruct (dict_get "access_token" d) as [v|]; [rewrite Hv|]; reflexivity.
Qed.

Lemma ensure_no_tokens (self : AuthManager) (w : World) :
  truthy (tokens self) = false ->
  ensure_access_token (self, w)
  = (Raise (RuntimeError "No tokens found. Run Whoop(login=True) first."), (self, w)).
Proof.
  intros Ht.
  unfold ensure_access_token, bind, self_get, gets, lift, ret, raise.
  cbn [fst snd]. rewrite Ht. reflexivity.
Qed.

(** *** Construction *)

Lemma load_settings_eq (w : World) : _load_settings w = (stored_settings w, w).
Proof.
  unfold _load_settings, stored_settings, bind, path_exists, json_load, ret.
  destruct (files w SETTINGS_PATH) eqn:E; cbn [fst snd]; rewrite ?E; reflexivity.
Qed.

Lemma finish_world (s cid sec uri : json) (w : World) :
  snd (finish s cid sec uri w) = w.
Proof.
  unfold finish, _load_tokens, bind, path_exists, json_load, ret.
  destruct (files w CONFIG_PATH) as [text|] eqn:E; cbn [fst snd]; rewrite ?E;
    [|reflexivity].
  destruct (json_loads text); reflexivity.
Qed.

Lemma finish_result (s cid sec uri : json) (w : World) (mgr : AuthManager) :
  fst (finish s cid sec uri w) = Ok mgr ->
  settings mgr = s /\ client_id mgr = cid /\ client_secret mgr = sec /\
  redirect_uri mgr = uri.
Proof.
  unfold finish, _load_tokens, bind, path_exists, json_load, ret.
  destruct (files w CONFIG_PATH) as [text|] eqn:E; cbn [fst snd]; rewrite ?E.
  - destruct (json_loads text); cbn [fst]; intros H; inversion H; subst;
      repeat split.
  - cbn [fst]. intros H; inversion H; subst; repeat split.
Qed.

(** [__init__] step by step: the settings are loaded, the two credentials
    and the redirect URI are resolved, and either the prompt runs or the
    manager is built from what was resolved. *)
Lemma init_eq (w : World) :
  init w =
  match stored_settings w with
  | Raise e => (Raise e, w)
  | Ok s =>
      match resolve w s ID_VAR "client_id" with
      | Raise e => (Raise e, w)
      | Ok cid =>
          match resolve w s SECRET_VAR "client_secret" with
          | Raise e => (Raise e, w)
          | Ok sec =>
              match py_get s "redirect_uri" with
              | Raise e => (Raise e, w)
              | Ok uri =>
                  if negb (truthy cid) || negb (truthy sec) then
                    match stdin w with
                    | l1 :: l2 :: l3 :: rest =>
                        finish s (JStr (strip l1)) (JStr (strip l2))
                          (py_or (JStr (strip l3)) (JStr DEFAULT_REDIRECT))
                          (prompted w l1 l2 l3 rest)
                    | _ => (Raise EOFError, starved w)
                    end
                  else finish s cid sec (py_or uri (JStr DEFAULT_REDIRECT)) w
              end
          end
      end
  end.
Proof.
  unfold init. unfold bind at 1. rewrite load_settings_eq.
  destruct (stored_settings w) as [s|e]; [|reflexivity].
  unfold resolve, ID_VAR, SECRET_VAR, getenv_json, bind, os_getenv, lift, ret.
  cbn [fst snd].
  destruct (truthy match environ w "WHOOP_CLIENT_ID" with
                   | Some v => JStr v | None => JNull end) eqn:T1;
    [|destruct (py_get s "client_id") as [cid|e]; [|reflexivity]];
    (destruct (truthy match environ w "WHOOP_CLIENT_SECRET" with
                      | Some v => JStr v | None => JNull end) eqn:T2;
     [|destruct (py_get s "client_secret") as [sec|e]; [|reflexivity]]);
    (destruct (py_get s "redirect_uri") as [uri|e]; [|reflexivity]);
    rewrite ?T1, ?T2; cbn [negb orb];
    try reflexivity;
    repeat match goal with
           | |- context [truthy ?v] => is_var v; destruct (truthy v)
           end;
    cbn [negb orb]; try reflexivity;
    unfold print, input, _save_settings, mkdir_parents, json_dump, bind, log,
      finish, prompted, starved, typed_credentials;
    cbn [fst snd trace stdin environ files endpoint];
    destruct (stdin w) as [|l1 [|l2 [|l3 rest]]];
    cbn [fst snd trace stdin environ files endpoint firstn List.length];
    rewrite <- ?List.app_assoc; reflexivity.
Qed.

Lemma resolve_env (w : World) (s : json) (var key e : string) :
  env_value w var = Some e ->
  resolve w s var key = Ok (JStr e) /\ truthy (JStr e) = true.
Proof.
  unfold env_value, resolve, getenv_json.
  destruct (environ w var) as [v|]; [|discriminate].
  destruct (String.eqb v "") eqn:E; [discriminate|].
  intros H; inversion H; subst. cbn [truthy]. rewrite E. split; reflexivity.
Qed.

Lemma resolve_settings (w : World) (s : json) (var key : string) :
  env_value w var = None -> resolve w s var key = py_get s key.
Proof.
  unfold env_value, resolve, getenv_json.
  destruct (environ w var) as [v|]; [|reflexivity].
  cbn [truthy]. destruct (String.eqb v ""); [reflexivity | discriminate].
Qed.

Lemma settings_value_get (w : World) (s : json) (key : string) (v : json) :
  stored_settings w = Ok s ->
  py_get s key = Ok v -> truthy v = true -> settings_value w key = Some v.
Proof.
  unfold settings_value. intros -> G T.
  destruct s; try discriminate G. cbn [py_get] in G.
  destruct (dict_get key d) as [v'|].
  - inversion G; subst. rewrite T. reflexivity.
  - inversion G; subst. discriminate T.
Qed.

Lemma resolvable_truthy (w : World) (s : json) (var key : string) :
  stored_settings w = Ok s ->
  resolvable w var key = true ->
  exists v, resolve w s var key = Ok v /\ truthy v = true.
Proof.
  intros Hs. unfold resolvable.
  destruct (env_value w var) as [e|] eqn:E.
  - intros _. exists (JStr e). apply (resolve_env w s var key e E).
  - rewrite (resolve_settings w s var key E).
    unfold settings_value. rewrite Hs.
    destruct s; try discriminate. cbn [py_get].
    destruct (dict_get key d) as [v|]; [|discriminate].
    destruct (truthy v) eqn:T; [|discriminate].
    intros _. exists v. split; [reflexivity | exact T].
Qed.

Lemma unresolvable_falsy (w : World) (s : json) (var key : string) (v : json) :
  stored_settings w = Ok s ->
  resolvable w var key = false ->
  resolve w s var key = Ok v -> truthy v = false.
Proof.
  intros Hs. unfold resolvable.
  destruct (env_value w var) as [e|] eqn:E; [discriminate|].
  rewrite (resolve_settings w s var key E).
  destruct (settings_value w key) as [x|] eqn:S; [discriminate|].
  intros _ G. destruct (truthy v) eqn:T; [|reflexivity].
  rewrite (settings_value_get w s key v Hs G T) in S. discriminate S.
Qed.

Lemma typed_credentials_wf (l1 l2 l3 : string) :
  wf_json (typed_credentials l1 l2 l3) = true.
Proof.
  unfold typed_credentials, py_or. destruct (truthy (JStr (strip l3))); reflexivity.
Qed.

(** Without a prompt [__init__] only reads: the world is the one it found. *)
Lemma init_quiet (w : World) :
  resolvable w ID_VAR "client_id" = true ->
  resolvable w SECRET_VAR "client_secret" = true ->
  snd (init w) = w.
Proof.
  intros R1 R2. rewrite init_eq.
  destruct (stored_settings w) as [s|e] eqn:Hs; [|reflexivity].
  destruct (resolvable_truthy w s _ _ Hs R1) as (cid & -> & T1).
  destruct (resolvable_truthy w s _ _ Hs R2) as (sec & -> & T2).
  destruct (py_get s "redirect_uri"); [|reflexivity].
  rewrite T1, T2. apply finish_world.
Qed.

(** A manager built without a prompt holds what was resolved. *)
Lemma init_resolved (w w' : World) (mgr : AuthManager) :
  init w = (Ok mgr, w') ->
  resolvable w ID_VAR "client_id" = true ->
  resolvable w SECRET_VAR "client_secret" = true ->
  exists s,
    stored_settings w = Ok s /\
    resolve w s ID_VAR "client_id" = Ok (client_id mgr) /\
    truthy (client_id mgr) = true /\
    resolve w s SECRET_VAR "client_secret" = Ok (client_secret mgr) /\
    truthy (client_secret mgr) = true.
Proof.
  intros Hi R1 R2. rewrite init_eq in Hi.
  destruct (stored_settings w) as [s|e] eqn:Hs; [|discriminate Hi].
  destruct (resolvable_truthy w s _ _ Hs R1) as (cid & E1 & T1).
  destruct (resolvable_truthy w s _ _ Hs R2) as (sec & E2 & T2).
  rewrite E1, E2 in Hi.
  destruct (py_get s "redirect_uri") as [uri|]; [|discriminate Hi].
  rewrite T1, T2 in Hi. cbn [negb orb] in Hi.
  assert (F : fst (finish s cid sec (py_or uri (JStr DEFAULT_REDIRECT)) w) = Ok mgr)
    by (rewrite Hi; reflexivity).
  apply finish_result in F. destruct F as (_ & -> & -> & _).
  exists s. repeat split; assumption.
Qed.

(** A manager built after a prompt holds the three lines typed, and they
    are in the settings file. *)
Lemma init_prompted (w w' : World) (mgr : AuthManager) :
  init w = (Ok mgr, w') ->
  resolvable w ID_VAR "client_id" && resolvable w SECRET_VAR "client_secret" = false ->
  exists l1 l2 l3 rest,
    stdin w = l1 :: l2 :: l3 :: rest /\
    w' = prompted w l1 l2 l3 rest /\
    credentials mgr = typed_credentials l1 l2 l3.
Proof.
  intros Hi R. rewrite init_eq in Hi.
  destruct (stored_settings w) as [s|e] eqn:Hs; [|discriminate Hi].
  destruct (resolve w s ID_VAR "client_id") as [cid|] eqn:E1; [|discriminate Hi].
  destruct (resolve w s SECRET_VAR "client_secret") as [sec|] eqn:E2;
    [|discriminate Hi].
  destruct (py_get s "redirect_uri") as [uri|]; [|discriminate Hi].
  assert (C : negb (truthy cid) || negb (truthy sec) = true).
  { apply andb_false_iff in R. destruct R as [R | R].
    - rewrite (unresolvable_falsy w s _ _ cid Hs R E1). reflexivity.
    - rewrite (unresolvable_falsy w s _ _ sec Hs R E2). apply orb_true_r. }
  rewrite C in Hi.
  destruct (stdin w) as [|l1 [|l2 [|l3 rest]]]; try discriminate Hi.
  exists l1, l2, l3, rest. split; [reflexivity|].
  pose proof (finish_world s (JStr (strip l1)) (JStr (strip l2))
                (py_or (JStr (strip l3)) (JStr DEFAULT_REDIRECT))
                (prompted w l1 l2 l3 rest)) as W.
  assert (F : fst (finish s (JStr (strip l1)) (JStr (strip l2))
                     (py_or (JStr (strip l3)) (JStr DEFAULT_REDIRECT))
                     (prompted w l1 l2 l3 rest)) = Ok mgr)
    by (rewrite Hi; reflexivity).
  rewrite Hi in W. cbn [snd] in W. split; [exact W|].
  apply finish_result in F. destruct F as (_ & F1 & F2 & F3).
  unfold credentials, typed_credentials. rewrite F1, F2, F3. reflexivity.
Qed.

(** With a settings mapping, a missing credential and three lines on the
    console, the prompt runs to its end, whatever the token file holds. *)
Lemma init_prompt_world (w : World) (d : dict) (l1 l2 l3 : string)
      (rest : list string) :
  stored_settings w = Ok (JObj d) ->
  resolvable w ID_VAR "client_id" && resolvable w SECRET_VAR "client_secret" = false ->
  stdin w = l1 :: l2 :: l3 :: rest ->
  snd (init w) = prompted w l1 l2 l3 rest.
Proof.
  intros Hs R Hin. rewrite init_eq, Hs.
  assert (G : forall var key, exists v, resolve w (JObj d) var key = Ok v).
  { intros var key. unfold resolve.
    destruct (truthy (getenv_json w var)); eexists; reflexivity. }
  destruct (G ID_VAR "client_id") as [cid E1].
  destruct (G SECRET_VAR "client_secret") as [sec E2].
  rewrite E1, E2. cbn [py_get].
  assert (C : negb (truthy cid) || negb (truthy sec) = true).
  { apply andb_false_iff in R. destruct R as [R | R].
    - rewrite (unresolvable_falsy w _ _ _ cid Hs R E1). reflexivity.
    - rewrite (unresolvable_falsy w _ _ _ sec Hs R E2). apply orb_true_r. }
  rewrite C, Hin. apply finish_world.
Qed.

(** *** Query strings *)

Lemma unquote_plus_quote_char (c : ascii) (t : string) :
  unquote_plus (quote_plus_char c ++ t) = option_map (String c) (unquote_plus t).
Proof.
  destruct c as [b0 b1 b2 b3 b4 b5 b6 b7].
  destruct b0, b1, b2, b3, b4, b5, b6, b7; reflexivity.
Qed.

Lemma unquote_plus_quote (s : string) : unquote_plus (quote_plus s) = Some s.
Proof.
  induction s as [|c s IH]; [reflexivity|].
  cbn [quote_plus]. rewrite unquote_plus_quote_char, IH. reflexivity.
Qed.

Lemma contains_char_app (c : ascii) (a b : string) :
  contains_char c (a ++ b) = contains_char c a || contains_char c b.
Proof.
  induction a as [|x a IH]; [reflexivity|].
  cbn [append contains_char]. rewrite IH. apply orb_assoc.
Qed.

(** The text [quote_plus] produces holds no delimiter of a URL query. *)
Lemma quote_plus_char_clean (c : ascii) :
  contains_char "&" (quote_plus_char c) = false /\
  contains_char "=" (quote_plus_char c) = false /\
  contains_char "#" (quote_plus_char c) = false /\
  contains_char "?" (quote_plus_char c) = false.
Proof.
  destruct c as [b0 b1 b2 b3 b4 b5 b6 b7].
  destruct b0, b1, b2, b3, b4, b5, b6, b7; repeat split; reflexivity.
Qed.

Lemma quote_plus_clean (s : string) :
  contains_char "&" (quote_plus s) = false /\
  contains_char "=" (quote_plus s) = false /\
  contains_char "#" (quote_plus s) = false /\
  contains_char "?" (quote_plus s) = false.
Proof.
  induction s as [|c s (I1 & I2 & I3 & I4)]; [repeat split; reflexivity|].
  cbn [quote_plus]. rewrite !contains_char_app, I1, I2, I3, I4.
  destruct (quote_plus_char_clean c) as (C1 & C2 & C3 & C4).
  rewrite C1, C2, C3, C4. repeat split; reflexivity.
Qed.

Lemma quote_plus_nonempty (s : string) : s <> "" -> quote_plus s <> "".
Proof.
  destruct s as [|c s]; [congruence|]. intros _. cbn [quote_plus].
  destruct c as [b0 b1 b2 b3 b4 b5 b6 b7].
  destruct b0, b1, b2, b3, b4, b5, b6, b7; discriminate.
Qed.

Lemma partition_app (c : ascii) (a b : string) :
  contains_char c a = false ->
  partition c (a ++ b) = (a ++ fst (partition c b), snd (partition c b)).
Proof.
  induction a as [|x a IH]; cbn [append contains_char partition]; intros H.
  - destruct (partition c b); reflexivity.
  - apply orb_false_iff in H. destruct H as [H1 H2].
    rewrite H1, (IH H2). reflexivity.
Qed.

Lemma partition_absent (c : ascii) (a : string) :
  contains_char c a = false -> partition c a = (a, None).
Proof.
  induction a as [|x a IH]; cbn [contains_char partition]; intros H;
    [reflexivity|].
  apply orb_false_iff in H. destruct H as [H1 H2].
  rewrite H1, (IH H2). reflexivity.
Qed.

Lemma partition_at (c : ascii) (a b : string) :
  contains_char c a = false -> partition c (a ++ String c b) = (a, Some b).
Proof.
  intros H. rewrite (partition_app c a _ H). cbn [partition].
  rewrite Ascii.eqb_refl. cbn [fst snd]. rewrite append_nil_r. reflexivity.
Qed.

Lemma split_absent (c : ascii) (a : string) :
  contains_char c a = false -> split c a = [a].
Proof.
  induction a as [|x a IH]; cbn [contains_char split]; intros H;
    [reflexivity|].
  apply orb_false_iff in H. destruct H as [H1 H2].
  rewrite H1, (IH H2). reflexivity.
Qed.

Lemma split_at (c : ascii) (a b : string) :
  contains_char c a = false -> split c (a ++ String c b) = a :: split c b.
Proof.
  induction a as [|x a IH]; cbn [append contains_char split]; intros H.
  - rewrite Ascii.eqb_refl. reflexivity.
  - apply orb_false_iff in H. destruct H as [H1 H2].
    rewrite H1, (IH H2). reflexivity.
Qed.

(** One field [k=v] of an encoded query, read back. *)
Lemma partition_field (k v : string) :
  v <> "" ->
  exists c r,
    quote_plus v = String c r /\
    partition "=" (quote_plus k ++ String "=" (quote_plus v))
    = (quote_plus k, Some (String c r)).
Proof.
  intros Hv. destruct (quote_plus v) as [|c r] eqn:E.
  - exfalso. apply (quote_plus_nonempty v Hv E).
  - exists c, r. split; [reflexivity|].
    apply partition_at. apply (quote_plus_clean k).
Qed.

Lemma field_clean (k v : string) :
  contains_char "&" (quote_plus k ++ String "=" (quote_plus v)) = false /\
  contains_char "#" (quote_plus k ++ String "=" (quote_plus v)) = false.
Proof.
  rewrite !contains_char_app. cbn [contains_char].
  destruct (quote_plus_clean k) as (K1 & _ & K3 & _).
  destruct (quote_plus_clean v) as (V1 & _ & V3 & _).
  rewrite K1, K3, V1, V3. split; reflexivity.
Qed.

Lemma parse_pairs_field (k v : string) (rest : list string) :
  v <> "" ->
  parse_pairs ((quote_plus k ++ String "=" (quote_plus v)) :: rest)
  = match parse_pairs rest with
    | Some r => Some ((k, v) :: r)
    | None => None
    end.
Proof.
  intros Hv. destruct (partition_field k v Hv) as (c & r & E & P).
  cbn [parse_pairs]. rewrite P, <- E, !unquote_plus_quote. reflexivity.
Qed.

(** What [urlencode] writes, [parse_qsl] reads back, as long as no value is
    empty. *)
Lemma parse_qsl_urlencode (params : list (string * json)) :
  Forall (fun kv => py_str (snd kv) <> "") params ->
  parse_qsl (urlencode params)
  = Some (map (fun kv => (fst kv, py_str (snd kv))) params) /\
  contains_char "#" (urlencode params) = false.
Proof.
  unfold parse_qsl. induction 1 as [|[k v] params Hv _ IH].
  - split; reflexivity.
  - cbn [snd fst] in Hv. destruct IH as [IH1 IH2].
    destruct (field_clean k (py_str v)) as [F1 F2].
    destruct params as [|kv params].
    + cbn [urlencode map fst snd].
      change (quote_plus k ++ "=" ++ quote_plus (py_str v))
        with (quote_plus k ++ String "=" (quote_plus (py_str v))).
      rewrite (split_absent _ _ F1), (parse_pairs_field k _ [] Hv), F2.
      split; reflexivity.
    + change (urlencode ((k, v) :: kv :: params))
        with (quote_plus k ++ "=" ++ quote_plus (py_str v) ++ "&" ++
              urlencode (kv :: params)).
      change (quote_plus k ++ "=" ++ quote_plus (py_str v) ++ "&" ++
              urlencode (kv :: params))
        with (quote_plus k ++ String "=" (quote_plus (py_str v) ++ String "&"
              (urlencode (kv :: params)))).
      assert (A : quote_plus k ++ String "=" (quote_plus (py_str v) ++ String "&"
                    (urlencode (kv :: params)))
                  = (quote_plus k ++ String "=" (quote_plus (py_str v))) ++ String "&"
                    (urlencode (kv :: params))).
      { rewrite append_assoc. reflexivity. }
      rewrite A, (split_at _ _ _ F1), (parse_pairs_field k _ _ Hv), IH1.
      rewrite contains_char_app, F2. cbn [contains_char orb]. rewrite IH2.
      split; reflexivity.
Qed.

Lemma py_str_nonempty (o : json) : o <> JStr "" -> py_str o <> "".
Proof.
  destruct o as [|[]|z|s|[|x xs]|[|[k v] d]]; try discriminate.
  - intros _. cbn [py_str py_repr].
    destruct (int_repr_head z) as (c & r & E & _). rewrite E. discriminate.
  - cbn [py_str]. congruence.
Qed.

Lemma url_query_build (q : string) :
  contains_char "#" q = false ->
  url_query (AUTH_URL ++ "?" ++ q) = q.
Proof.
  intros H. unfold url_query.
  rewrite (partition_absent "#" (AUTH_URL ++ "?" ++ q)).
  - cbn [fst].
    change (AUTH_URL ++ "?" ++ q) with (AUTH_URL ++ String "?" q).
    rewrite (partition_at "?" AUTH_URL q eq_refl). reflexivity.
  - rewrite !contains_char_app, H. reflexivity.
Qed.

(** The query of the authorization URL, read back. *)
Lemma build_auth_url_query (self : AuthManager) :
  client_id self <> JStr "" ->
  redirect_uri self <> JStr "" ->
  scopes self <> "" ->
  state self <> "" ->
  parse_qsl (url_query (_build_auth_url self))
  = Some [("client_id", py_str (client_id self));
          ("response_type", "code");
          ("redirect_uri", py_str (redirect_uri self));
          ("scope", scopes self);
          ("state", state self)].
Proof.
  intros H1 H2 H3 H4. unfold _build_auth_url.
  destruct (parse_qsl_urlencode
              [("client_id", client_id self);
               ("response_type", JStr "code");
               ("redirect_uri", redirect_uri self);
               ("scope", JStr (scopes self));
               ("state", JStr (state self))]) as [P C].
  { repeat constructor; cbn [snd py_str];
      try (apply py_str_nonempty; assumption); try assumption; discriminate. }
  rewrite (url_query_build _ C). exact P.
Qed.

(* ------------------------------------------------------------------ *)
(** ** The claims *)

(** C1. A manager whose loaded TokenSet holds a non-empty access_token gets
    exactly that stored value from [ensure_access_token], and the world is
    left as it was: nothing is printed, written or posted, so no request
    reaches the token endpoint. *)
Theorem ensure_access_token_cached
        (self : AuthManager) (w : World) (d : dict) (a : string) :
  tokens self = JObj d ->
  dict_get "access_token" d = Some (JStr a) ->
  a <> "" ->
  ensure_access_token (self, w) = (Ok (JStr a), (self, w)) /\
  posts (trace (snd (snd (ensure_access_token (self, w))))) = posts (trace w).
Proof.
  intros Ht Hv Ha.
  assert (E : ensure_access_token (self, w) = (Ok (JStr a), (self, w))).
  { apply (ensure_cached self w d); [exact Ht | exact Hv |].
    simpl. apply negb_true_iff, String.eqb_neq. exact Ha. }
  split; [exact E | rewrite E; reflexivity].
Qed.

Lemma ensure_access_token_cached_witness :
  ensure_access_token
    (manager_with (JObj [("access_token", JStr "tok")]), quiet_world (fun _ => None))
  = (Ok (JStr "tok"),
     (manager_with (JObj [("access_token", JStr "tok")]), quiet_world (fun _ => None))).
Proof.
  apply (ensure_access_token_cached
           (manager_with (JObj [("access_token", JStr "tok")]))
           (quiet_world (fun _ => None))
           [("access_token", JStr "tok")] "tok");
    [reflexivity | reflexivity | discriminate].
Defined.

(** C2. When the token store held nothing at load, [_load_tokens] yields the
    empty TokenSet, and on a manager whose TokenSet is empty
    [ensure_access_token] raises the error that asks for a login (the
    RuntimeError the spec calls NotAuthenticatedError), leaving manager and
    world untouched. *)
Theorem ensure_access_token_no_tokens :
  (forall w, files w CONFIG_PATH = None -> _load_tokens w = (Ok (JObj []), w)) /\
  (forall self w,
      tokens self = JObj [] ->
      ensure_access_token (self, w)
      = (Raise (RuntimeError "No tokens found. Run Whoop(login=True) first."),
         (self, w))).
Proof.
  split.
  - intros w H. unfold _load_tokens, bind, path_exists, ret. rewrite H. reflexivity.
  - intros self w H. apply ensure_no_tokens. rewrite H. reflexivity.
Qed.

Lemma ensure_access_token_no_tokens_witness :
  _load_tokens (quiet_world (fun _ => None))
  = (Ok (JObj []), quiet_world (fun _ => None)) /\
  fst (ensure_access_token (manager_with (JObj []), quiet_world (fun _ => None)))
  = Raise (RuntimeError "No tokens found. Run Whoop(login=True) first.").
Proof.
  split.
  - apply (proj1 ensure_access_token_no_tokens). reflexivity.
  - rewrite (proj2 ensure_access_token_no_tokens (manager_with (JObj []))
               (quiet_world (fun _ => None)) eq_refl).
    reflexivity.
Defined.



(** C4. A refresh that succeeds with a response mapping merges it into the
    TokenSet, in memory and in the token store: every key absent from the
    response keeps its stored value, every key of the response takes the
    response value, and in particular a response without refresh_token
    leaves the stored refresh_token in place. *)
Theorem refresh_keeps_absent_keys
        (self : AuthManager) (w : World) (d new : dict) (r : json)
        (resp : Response) :
  tokens self = JObj d ->
  dict_get "refresh_token" d = Some r ->
  answer w (refresh_request self r) = Some resp ->
  raise_for_status resp = Ok tt ->
  json_loads (resp_text resp) = Ok (JObj new) ->
  let out := refresh_access_token (self, w) in
  let d' := dict_update d new in
  tokens (fst (snd out)) = JObj d' /\
  files (snd (snd out)) CONFIG_PATH = Some (json_dumps (JObj d')) /\
  (forall k, dict_get k new = None -> dict_get k d' = dict_get k d) /\
  (forall k v, dict_get k new = Some v -> dict_get k d' = Some v) /\
  (dict_get "refresh_token" new = None -> dict_get "refresh_token" d' = Some r).
Proof.
  intros Ht Hr Hresp Hs Hj out d'. subst out d'.
  rewrite (refresh_success self w d new r resp Ht Hr Hresp Hs Hj).
  cbn [fst snd]. repeat split.
  - intros k Hk. apply dict_get_update_absent. exact Hk.
  - intros k v Hk. apply dict_get_update_present; [|exact Hk].
    apply json_loads_wf in Hj. rewrite wf_json_obj in Hj.
    apply andb_true_iff in Hj. apply nodup_keys_NoDup. exact (proj1 Hj).
  - intros Hk. rewrite dict_get_update_absent by exact Hk. exact Hr.
Qed.

Lemma refresh_keeps_absent_keys_witness :
  tokens (fst (snd (refresh_access_token
                      (manager_with (JObj [("access_token", JStr "old");
                                           ("refresh_token", JStr "r")]),
                       quiet_world (replies 200 (JObj [("access_token", JStr "new")]))))))
  = JObj [("access_token", JStr "new"); ("refresh_token", JStr "r")].
Proof.
  exact (proj1 (refresh_keeps_absent_keys
                  (manager_with (JObj [("access_token", JStr "old");
                                       ("refresh_token", JStr "r")]))
                  (quiet_world (replies 200 (JObj [("access_token", JStr "new")])))
                  [("access_token", JStr "old"); ("refresh_token", JStr "r")]
                  [("access_token", JStr "new")] (JStr "r")
                  (mkResponse 200 (json_dumps (JObj [("access_token", JStr "new")])))
                  eq_refl eq_refl eq_refl eq_refl eq_refl)).
Defined.

(** C5. When the token endpoint answers the refresh with a 4xx or 5xx
    status, [refresh_access_token] raises the HTTP error that carries the
    upstream status and body (the spec calls it RefreshError); the TokenSet
    in memory is the one before the call, no file changed and no write was
    attempted. *)
Theorem refresh_error_leaves_tokens
        (self : AuthManager) (w : World) (d : dict) (r : json) (resp : Response) :
  tokens self = JObj d ->
  dict_get "refresh_token" d = Some r ->
  answer w (refresh_request self r) = Some resp ->
  400 <= resp_status resp < 600 ->
  let out := refresh_access_token (self, w) in
  fst out = Raise (HTTPError (resp_status resp) (resp_text resp)) /\
  fst (snd out) = self /\
  files (snd (snd out)) = files w /\
  writes (trace (snd (snd out))) = writes (trace w).
Proof.
  intros Ht Hr Hresp Hs out. subst out.
  rewrite (refresh_http_error self w d r resp
             (HTTPError (resp_status resp) (resp_text resp)) Ht Hr Hresp).
  - cbn [fst snd posted files trace]. repeat split.
    rewrite writes_app. simpl. apply List.app_nil_r.
  - unfold raise_for_status.
    destruct (Z.leb_spec 400 (resp_status resp)); [|lia].
    destruct (Z.ltb_spec (resp_status resp) 600); [reflexivity | lia].
Qed.

Lemma refresh_error_leaves_tokens_witness :
  fst (refresh_access_token
         (manager_with (JObj [("refresh_token", JStr "r")]),
          quiet_world (replies 401 (JObj [("error", JStr "invalid_grant")]))))
  = Raise (HTTPError 401 (json_dumps (JObj [("error", JStr "invalid_grant")]))).
Proof.
  apply (refresh_error_leaves_tokens
           (manager_with (JObj [("refresh_token", JStr "r")]))
           (quiet_world (replies 401 (JObj [("error", JStr "invalid_grant")])))
           [("refresh_token", JStr "r")] (JStr "r")
           (mkResponse 401 (json_dumps (JObj [("error", JStr "invalid_grant")])))
           eq_refl eq_refl eq_refl).
  simpl. lia.
Defined.

(** C6, as the code has it.  When both credentials are resolvable, so that
    no prompt runs, a credential whose environment variable holds a
    non-empty value is that value, whatever the settings file holds; the
    value of the settings file is used only when the environment variable
    is absent or empty. *)
Theorem init_env_precedence (w w' : World) (mgr : AuthManager) :
  init w = (Ok mgr, w') ->
  resolvable w ID_VAR "client_id" = true ->
  resolvable w SECRET_VAR "client_secret" = true ->
  (forall e, env_value w ID_VAR = Some e -> client_id mgr = JStr e) /\
  (forall e, env_value w SECRET_VAR = Some e -> client_secret mgr = JStr e) /\
  (env_value w ID_VAR = None ->
   settings_value w "client_id" = Some (client_id mgr)) /\
  (env_value w SECRET_VAR = None ->
   settings_value w "client_secret" = Some (client_secret mgr)).
Proof.
  intros Hi R1 R2.
  destruct (init_resolved w w' mgr Hi R1 R2) as (s & Hs & E1 & T1 & E2 & T2).
  repeat split.
  - intros e He. destruct (resolve_env w s ID_VAR "client_id" e He) as [E _].
    congruence.
  - intros e He. destruct (resolve_env w s SECRET_VAR "client_secret" e He) as [E _].
    congruence.
  - intros He. rewrite (resolve_settings w s _ _ He) in E1.
    apply (settings_value_get w s _ _ Hs E1 T1).
  - intros He. rewrite (resolve_settings w s _ _ He) in E2.
    apply (settings_value_get w s _ _ Hs E2 T2).
Qed.

Lemma init_env_precedence_witness :
  option_map client_id
    (built (setup_world [(ID_VAR, "from-env"); (SECRET_VAR, "env-secret")]
              (JObj [("client_id", JStr "from-file");
                     ("client_secret", JStr "file-secret")]) []))
  = Some (JStr "from-env").
Proof.
  exact (f_equal Some
           (proj1 (init_env_precedence
                     (setup_world [(ID_VAR, "from-env"); (SECRET_VAR, "env-secret")]
                        (JObj [("client_id", JStr "from-file");
                               ("client_secret", JStr "file-secret")]) [])
                     _ (mkAuthManager _ (JStr "from-env") _ _ _ _ _)
                     eq_refl eq_refl eq_refl)
                  "from-env" eq_refl)).
Defined.

(** C6 as it is stated fails twice.  An environment variable that is set
    but empty gives way to the settings file; and when the client secret is
    resolvable nowhere, the prompt replaces a client id that the
    environment and the settings file both hold. *)
Lemma init_env_not_always_used :
  (let w := setup_world [(ID_VAR, ""); (SECRET_VAR, "env-secret")]
              (JObj [("client_id", JStr "from-file")]) [] in
   environ w ID_VAR = Some "" /\
   option_map client_id (built w) = Some (JStr "from-file")) /\
  (let w := setup_world [(ID_VAR, "from-env")]
              (JObj [("client_id", JStr "from-file")])
              ["typed-id"; "typed-secret"; ""] in
   environ w ID_VAR = Some "from-env" /\
   option_map client_id (built w) = Some (JStr "typed-id")).
Proof. repeat split. Qed.

(** C7. With client_id [abc], redirect_uri [https://example.com], scope
    [a b] and state [s1] the authorization URL is the authorization endpoint
    followed by a query that decodes to exactly those four parameters and
    response_type=code.  The same holds of every manager: whatever
    characters its non-empty client id, redirect URI, scopes and state
    hold, the query of the URL decodes to exactly the five parameters with
    the values the manager holds, so the URL encodes them without loss.
    The URL depends on these four fields only, and building it, as [login]
    does, returns it with the manager and the world as they were: nothing
    is posted. *)
Theorem build_auth_url_example :
  (forall st sec toks : json,
      _build_auth_url (mkAuthManager st (JStr "abc") sec
                         (JStr "https://example.com") "a b" "s1" toks)
      = AUTH_URL ++ "?client_id=abc&response_type=code" ++
        "&redirect_uri=https%3A%2F%2Fexample.com&scope=a+b&state=s1" /\
      parse_qsl (url_query (_build_auth_url
                              (mkAuthManager st (JStr "abc") sec
                                 (JStr "https://example.com") "a b" "s1" toks)))
      = Some [("client_id", "abc"); ("response_type", "code");
              ("redirect_uri", "https://example.com");
              ("scope", "a b"); ("state", "s1")]) /\
  (forall self : AuthManager,
      client_id self <> JStr "" ->
      redirect_uri self <> JStr "" ->
      scopes self <> "" ->
      state self <> "" ->
      parse_qsl (url_query (_build_auth_url self))
      = Some [("client_id", py_str (client_id self));
              ("response_type", "code");
              ("redirect_uri", py_str (redirect_uri self));
              ("scope", scopes self);
              ("state", state self)]) /\
  (forall (st st' sec sec' toks toks' cid uri : json) (sc sta : string),
      _build_auth_url (mkAuthManager st cid sec uri sc sta toks)
      = _build_auth_url (mkAuthManager st' cid sec' uri sc sta toks')) /\
  (forall (self : AuthManager) (w : World),
      self_get _build_auth_url (self, w)
      = (Ok (_build_auth_url self), (self, w))).
Proof.
  split; [|split; [|split]].
  - intros st sec toks. split; reflexivity.
  - exact build_auth_url_query.
  - reflexivity.
  - reflexivity.
Qed.

Lemma build_auth_url_example_witness :
  parse_qsl (url_query (_build_auth_url
                          (mkAuthManager (JObj []) (JStr "my id+1") (JStr "s")
                             (JStr "http://localhost:8080/cb?next=/a&b=%41")
                             "offline read:sleep" "x=y;z" (JObj []))))
  = Some [("client_id", "my id+1"); ("response_type", "code");
          ("redirect_uri", "http://localhost:8080/cb?next=/a&b=%41");
          ("scope", "offline read:sleep"); ("state", "x=y;z")].
Proof.
  apply (proj1 (proj2 build_auth_url_example)
           (mkAuthManager (JObj []) (JStr "my id+1") (JStr "s")
              (JStr "http://localhost:8080/cb?next=/a&b=%41")
              "offline read:sleep" "x=y;z" (JObj [])));
    discriminate.
Defined.

(** C8. The settings store is written only by the prompt: when client id
    and client secret are both resolvable from the environment or the
    settings file, [__init__] leaves the whole world, the settings file
    included, as it found it.  And when it returns a manager after a
    prompt, the full credential triple of that manager has been written to
    the settings file, from which it loads back; the triple typed at the
    prompt is in the settings file as soon as the three lines are read,
    even if loading the tokens fails afterwards. *)
Theorem init_settings_written_only_when_prompted (w : World) :
  (resolvable w ID_VAR "client_id" = true ->
   resolvable w SECRET_VAR "client_secret" = true ->
   snd (init w) = w) /\
  (forall mgr w',
      init w = (Ok mgr, w') ->
      resolvable w ID_VAR "client_id" && resolvable w SECRET_VAR "client_secret"
      = false ->
      files w' SETTINGS_PATH = Some (json_dumps (credentials mgr)) /\
      writes (trace w')
      = (writes (trace w) ++ [(SETTINGS_PATH, json_dumps (credentials mgr))])%list /\
      _load_settings w' = (Ok (credentials mgr), w')) /\
  (forall d l1 l2 l3 rest,
      stored_settings w = Ok (JObj d) ->
      resolvable w ID_VAR "client_id" && resolvable w SECRET_VAR "client_secret"
      = false ->
      stdin w = l1 :: l2 :: l3 :: rest ->
      files (snd (init w)) SETTINGS_PATH
      = Some (json_dumps (typed_credentials l1 l2 l3))).
Proof.
  split; [apply init_quiet|]. split;
    [|intros d l1 l2 l3 rest Hs R Hin;
      rewrite (init_prompt_world w d l1 l2 l3 rest Hs R Hin); reflexivity].
  intros mgr w' Hi R.
  destruct (init_prompted w w' mgr Hi R) as (l1 & l2 & l3 & rest & _ & -> & ->).
  split; [reflexivity|]. split.
  - unfold prompted. cbn [trace]. rewrite writes_app. reflexivity.
  - rewrite load_settings_eq. unfold stored_settings, prompted.
    cbn [files Path_eqb].
    rewrite (json_loads_dumps _ (typed_credentials_wf l1 l2 l3)). reflexivity.
Qed.

Lemma init_settings_written_only_when_prompted_witness :
  (let w := setup_world [(ID_VAR, "from-env"); (SECRET_VAR, "env-secret")]
              (JObj []) [] in
   snd (init w) = w) /\
  (let w := setup_world [] (JObj []) ["typed-id"; "typed-secret"; ""] in
   files (snd (init w)) SETTINGS_PATH
   = Some (json_dumps (JObj [("client_id", JStr "typed-id");
                             ("client_secret", JStr "typed-secret");
                             ("redirect_uri", JStr DEFAULT_REDIRECT)]))).
Proof.
  split.
  - exact (proj1 (init_settings_written_only_when_prompted
                    (setup_world [(ID_VAR, "from-env"); (SECRET_VAR, "env-secret")]
                       (JObj []) []))
                 eq_refl eq_refl).
  - exact (proj1 (proj1 (proj2 (init_settings_written_only_when_prompted
                                  (setup_world [] (JObj [])
                                     ["typed-id"; "typed-secret"; ""])))
                        _ _ eq_refl eq_refl)).
Defined.



(** C10, as the code has it.  An access_token that is present but empty is
    not returned from the cache: presence is decided by truthiness, so the
    call is the refresh, with the request an absent key would post; and
    whenever the response carries an access_token, that value is the
    result, as it is for a manager whose TokenSet lacks the key. *)
Theorem ensure_empty_access_token_refreshes
        (self : AuthManager) (w : World) (d : dict) :
  tokens self = JObj d ->
  dict_get "access_token" d = Some (JStr "") ->
  ensure_access_token (self, w) = refresh_access_token (self, w) /\
  forall r resp new a,
    dict_get "refresh_token" d = Some r ->
    answer w (refresh_request self r) = Some resp ->
    raise_for_status resp = Ok tt ->
    json_loads (resp_text resp) = Ok (JObj new) ->
    dict_get "access_token" new = Some a ->
    fst (ensure_access_token (self, w)) = Ok a /\
    forall self0 d0,
      tokens self0 = JObj d0 ->
      dict_get "access_token" d0 = None ->
      dict_get "refresh_token" d0 = Some r ->
      client_id self0 = client_id self ->
      client_secret self0 = client_secret self ->
      fst (ensure_access_token (self0, w)) = Ok a /\
      posts (trace (snd (snd (ensure_access_token (self0, w)))))
      = posts (trace (snd (snd (ensure_access_token (self, w))))).
Proof.
  intros Ht Ha.
  assert (E : ensure_access_token (self, w) = refresh_access_token (self, w)).
  { apply (ensure_goes_to_refresh self w d Ht).
    - intros ->. discriminate Ha.
    - rewrite Ha. reflexivity. }
  split; [exact E|].
  intros r resp new a Hr Hresp Hs Hj Hnew.
  assert (N : NoDup (map fst new)).
  { apply json_loads_wf in Hj. rewrite wf_json_obj in Hj.
    apply andb_true_iff in Hj. apply nodup_keys_NoDup. exact (proj1 Hj). }
  split.
  - rewrite E, (refresh_success self w d new r resp Ht Hr Hresp Hs Hj).
    cbn [fst py_getitem].
    rewrite (dict_get_update_present "access_token" a new d N Hnew). reflexivity.
  - intros self0 d0 Ht0 Ha0 Hr0 Hid Hsec.
    assert (Q : refresh_request self0 r = refresh_request self r)
      by (unfold refresh_request; rewrite Hid, Hsec; reflexivity).
    assert (E0 : ensure_access_token (self0, w) = refresh_access_token (self0, w)).
    { apply (ensure_goes_to_refresh self0 w d0 Ht0).
      - intros ->. discriminate Hr0.
      - rewrite Ha0. exact I. }
    rewrite <- Q in Hresp. rewrite E0, E. split.
    + rewrite (refresh_success self0 w d0 new r resp Ht0 Hr0 Hresp Hs Hj).
      cbn [fst py_getitem].
      rewrite (dict_get_update_present "access_token" a new d0 N Hnew).
      reflexivity.
    + rewrite (refresh_posts_once self0 w d0 r Ht0 Hr0),
        (refresh_posts_once self w d r Ht Hr), Q.
      reflexivity.
Qed.

Lemma ensure_empty_access_token_refreshes_witness :
  fst (ensure_access_token
         (manager_with (JObj [("access_token", JStr ""); ("refresh_token", JStr "r")]),
          quiet_world (replies 200 (JObj [("access_token", JStr "new")]))))
  = Ok (JStr "new").
Proof.
  pose proof (ensure_empty_access_token_refreshes
                (manager_with (JObj [("access_token", JStr "");
                                     ("refresh_token", JStr "r")]))
                (quiet_world (replies 200 (JObj [("access_token", JStr "new")])))
                [("access_token", JStr ""); ("refresh_token", JStr "r")]
                eq_refl eq_refl) as [_ H].
  exact (proj1 (H (JStr "r")
                  (mkResponse 200 (json_dumps (JObj [("access_token", JStr "new")])))
                  [("access_token", JStr "new")] (JStr "new")
                  eq_refl eq_refl eq_refl eq_refl eq_refl)).
Defined.

(** C10 as it is stated fails: when the response of a successful refresh
    carries no access_token, the stored empty string is what
    [ensure_access_token] returns, whereas with the key absent the same
    call raises KeyError. *)
Lemma ensure_empty_access_token_returned :
  fst (ensure_access_token
         (manager_with (JObj [("access_token", JStr ""); ("refresh_token", JStr "r")]),
          quiet_world (replies 200 (JObj [("token_type", JStr "bearer")]))))
  = Ok (JStr "") /\
  fst (ensure_access_token
         (manager_with (JObj [("refresh_token", JStr "r")]),
          quiet_world (replies 200 (JObj [("token_type", JStr "bearer")]))))
  = Raise (KeyError "access_token").
Proof. split; reflexivity. Qed.

(* ------------------------------------------------------------------ *)
(** ** Further properties of the manager *)

Local Arguments _build_auth_url : simpl never.
Local Arguments strip : simpl never.


(** *** Login *)

Lemma posts_login_banner (self : AuthManager) : posts (login_banner self) = [].
Proof. reflexivity. Qed.

Lemma answer_exchanged (self : AuthManager) (w : World) (rq : Request) :
  endpoint w (posts ((trace w ++ login_banner self) ++ [EvPost rq])) = answer w rq.
Proof.
  unfold answer. rewrite !posts_app, posts_login_banner. simpl.
  rewrite List.app_nil_r. reflexivity.
Qed.

Ltac run_login :=
  unfold login, _exchange_code_for_tokens, _save_tokens, bind, io, self_get,
    gets, lift, ret, print, input, webbrowser_open, requests_post, set_tokens,
    modify, mkdir_parents, json_dump, resp_json, log;
  cbn [fst snd trace environ files stdin endpoint redirect_uri client_id
       client_secret].

Lemma login_trace_eq (self : AuthManager) (w : World) :
  (((((trace w ++ [EvPrint "Opening WHOOP authorization page in your browser..."]) ++
      [EvBrowser (_build_auth_url self)]) ++
     [EvPrint "Once you approve access, you will be redirected to:"]) ++
    [EvPrint "   https://www.google.com/?code=XXXX&state=whoop_sdk_state_12345"]) ++
   [EvInput "Paste the code from that URL: "])%list
  = (trace w ++ login_banner self)%list.
Proof. unfold login_banner. rewrite <- !List.app_assoc. reflexivity. Qed.

Lemma login_eof_eq (self : AuthManager) (w : World) :
  stdin w = [] ->
  login (self, w)
  = (Raise EOFError,
     (self, mkWorld (environ w) (files w) [] (endpoint w)
              (trace w ++ login_banner self)%list)).
Proof.
  intros Hin. run_login. rewrite Hin, login_trace_eq. reflexivity.
Qed.

Lemma login_success (self : AuthManager) (w : World) (line : string)
      (rest : list string) (resp : Response) (toks : json) :
  stdin w = line :: rest ->
  answer w (login_request self (strip line)) = Some resp ->
  raise_for_status resp = Ok tt ->
  json_loads (resp_text resp) = Ok toks ->
  login (self, w)
  = (Ok toks, (with_tokens toks self, logged_in self w line rest toks)).
Proof.
  intros Hin Ha Hs Hj. run_login. rewrite Hin. cbn [fst snd trace].
  rewrite login_trace_eq. cbn [fst snd trace environ files stdin endpoint].
  change (mkRequest TOKEN_URL _) with (login_request self (strip line)).
  rewrite answer_exchanged, Ha, Hs, Hj.
  cbn [fst snd trace environ files stdin endpoint].
  unfold logged_in. rewrite <- !List.app_assoc. reflexivity.
Qed.

Lemma login_failure (self : AuthManager) (w : World) (line : string)
      (rest : list string) (e : exn) :
  stdin w = line :: rest ->
  match answer w (login_request self (strip line)) with
  | None => e = ConnectionError
  | Some resp =>
      raise_for_status resp = Raise e \/
      (raise_for_status resp = Ok tt /\ json_loads (resp_text resp) = Raise e)
  end ->
  login (self, w) = (Raise e, (self, exchanged self w line rest)).
Proof.
  intros Hin Ha. run_login. rewrite Hin. cbn [fst snd trace].
  rewrite login_trace_eq. cbn [fst snd trace environ files stdin endpoint].
  change (mkRequest TOKEN_URL _) with (login_request self (strip line)).
  rewrite answer_exchanged. unfold exchanged.
  destruct (answer w _) as [resp|].
  - destruct Ha as [Hs | [Hs Hj]]; rewrite Hs; [|rewrite Hj];
      cbn [fst snd]; rewrite <- !List.app_assoc; reflexivity.
  - subst e. rewrite <- !List.app_assoc. reflexivity.
Qed.

(** *** Every way a refresh can end *)

Lemma json_loads_raises (s : string) (e : exn) :
  json_loads s = Raise e -> e = JSONDecodeError \/ e = Unsupported.
Proof.
  unfold json_loads. destruct (scan_once _ _) as [v rest| | |].
  - destruct (skip_ws rest); [discriminate|]. intros H; inversion H; auto.
  - intros H; inversion H; auto.
  - intros H; inversion H; auto.
  - intros H; inversion H; auto.
Qed.

Lemma update_pair_raises (item : json) (e : exn) :
  update_pair item = Raise e -> e <> KeyError "access_token".
Proof.
  intros H E. subst e. unfold update_pair in H.
  repeat match type of H with
         | context [match ?x with _ => _ end] => destruct x
         end; discriminate H.
Qed.

Lemma update_seq_raises (items : list json) (d : dict) (e : exn) :
  snd (update_seq d items) = Raise e -> e <> KeyError "access_token".
Proof.
  revert d. induction items as [|item rest IH]; intros d; cbn [update_seq].
  - discriminate.
  - destruct (update_pair item) as [[k v]|e0] eqn:U; [apply IH|].
    cbn [snd]. intros H. inversion H. subst e0.
    exact (update_pair_raises _ _ U).
Qed.

(** The characters of a str are no pairs: only the empty str is accepted. *)
Lemma update_seq_str (d : dict) (s : string) :
  update_seq d (str_items s)
  = (d, match s with EmptyString => Ok tt | String _ _ => Raise ValueError end).
Proof. destruct s as [|c [|c' s]]; reflexivity. Qed.

(** What [self.tokens.update(arg)] does to a dict: it is merged, or the call
    raises with the dict as it was, or, for a JSON array, raises after the
    leading pairs went in. *)
Lemma py_update_cases (d : dict) (arg : json) :
  (exists dm, py_update (JObj d) arg = (JObj dm, Ok tt)) \/
  (exists e, py_update (JObj d) arg = (JObj d, Raise e) /\
             e <> KeyError "access_token") \/
  (exists items e,
      arg = JList items /\ snd (update_seq d items) = Raise e /\
      py_update (JObj d) arg = (JObj (fst (update_seq d items)), Raise e)).
Proof.
  destruct arg as [|b|z|s|l|new]; cbn [py_update].
  - right. left. eexists. split; [reflexivity | discriminate].
  - right. left. eexists. split; [reflexivity | discriminate].
  - right. left. eexists. split; [reflexivity | discriminate].
  - rewrite update_seq_str. destruct s.
    + left. eexists. reflexivity.
    + right. left. eexists. split; [reflexivity | discriminate].
  - destruct (update_seq d l) as [dm [[]|e]] eqn:U.
    + left. eexists. reflexivity.
    + right. right. exists l, e. rewrite U. repeat split.
  - left. eexists. reflexivity.
Qed.

(** The four ways a refresh can end: before the request, after the request
    with the manager untouched, after the request with a JSON array partly
    merged into [self.tokens], or after the merged tokens were saved. *)
Lemma refresh_cases (self : AuthManager) (w : World) :
  (exists e, refresh_access_token (self, w) = (Raise e, (self, announced w)) /\
             e <> KeyError "access_token") \/
  (exists r e,
      refresh_access_token (self, w)
      = (Raise e, (self, posted w (refresh_request self r))) /\
      e <> KeyError "access_token") \/
  (exists d r resp items e,
      tokens self = JObj d /\
      dict_get "refresh_token" d = Some r /\
      answer w (refresh_request self r) = Some resp /\
      raise_for_status resp = Ok tt /\
      json_loads (resp_text resp) = Ok (JList items) /\
      snd (update_seq d items) = Raise e /\
      refresh_access_token (self, w)
      = (Raise e, (with_tokens (JObj (fst (update_seq d items))) self,
                   posted w (refresh_request self r)))) \/
  (exists r dm,
      refresh_access_token (self, w)
      = (py_getitem (JObj dm) "access_token",
         (with_tokens (JObj dm) self,
          refreshed w (refresh_request self r) (JObj dm)))).
Proof.
  destruct (py_getitem (tokens self) "refresh_token") as [r|e] eqn:G.
  2:{ left. exists e. split.
      - destruct self as [st cid sec uri sc sta tk].
        unfold refresh_access_token, bind, io, self_get, gets, lift, print.
        cbn [fst snd tokens log trace environ files stdin endpoint] in *.
        rewrite G. reflexivity.
      - destruct (tokens self); cbn [py_getitem] in G;
          try (inversion G; discriminate).
        destruct (dict_get "refresh_token" d); inversion G; discriminate. }
  right.
  destruct (tokens self) as [| | | | |d] eqn:Ht; try discriminate G.
  cbn [py_getitem] in G.
  destruct (dict_get "refresh_token" d) as [r0|] eqn:Hr; [|discriminate G].
  inversion G. subst r0. clear G.
  assert (R :
    refresh_access_token (self, w)
    = match answer w (refresh_request self r) with
      | None => (Raise ConnectionError, (self, posted w (refresh_request self r)))
      | Some resp =>
          match raise_for_status resp with
          | Raise e => (Raise e, (self, posted w (refresh_request self r)))
          | Ok _ =>
              match json_loads (resp_text resp) with
              | Raise e => (Raise e, (self, posted w (refresh_request self r)))
              | Ok new =>
                  match snd (py_update (JObj d) new) with
                  | Raise e =>
                      (Raise e, (with_tokens (fst (py_update (JObj d) new)) self,
                                 posted w (refresh_request self r)))
                  | Ok _ =>
                      (py_getitem (fst (py_update (JObj d) new)) "access_token",
                       (with_tokens (fst (py_update (JObj d) new)) self,
                        refreshed w (refresh_request self r)
                          (fst (py_update (JObj d) new))))
                  end
              end
          end
      end).
  { destruct self as [st cid sec uri sc sta tk]. simpl in Ht. subst tk.
    unfold refresh_access_token, update_tokens, _save_tokens, bind, io,
      self_get, gets, lift, print, requests_post, set_tokens, modify,
      mkdir_parents, json_dump, resp_json.
    cbn [fst snd tokens client_id client_secret py_getitem log trace environ
         files stdin endpoint].
    rewrite Hr.
    change (mkRequest TOKEN_URL _) with
      (refresh_request (mkAuthManager st cid sec uri sc sta (JObj d)) r).
    rewrite answer_posted. unfold posted, refreshed, log.
    cbn [trace environ files stdin endpoint].
    destruct (answer w _) as [resp|];
      [|rewrite <- !List.app_assoc; reflexivity].
    destruct (raise_for_status resp) as [[]|e];
      [|rewrite <- !List.app_assoc; reflexivity].
    destruct (json_loads (resp_text resp)) as [new|e];
      [|rewrite <- !List.app_assoc; reflexivity].
    cbn [fst snd tokens with_tokens settings client_id client_secret
         redirect_uri scopes state].
    destruct (snd (py_update (JObj d) new)) as [[]|e];
      cbn [fst snd tokens with_tokens settings client_id client_secret
           redirect_uri scopes state trace environ files stdin endpoint];
      rewrite <- !List.app_assoc; reflexivity. }
  assert (S0 : with_tokens (JObj d) self = self).
  { destruct self; simpl in Ht; subst; reflexivity. }
  destruct (answer w (refresh_request self r)) as [resp|] eqn:Ha.
  2:{ left. exists r, ConnectionError. split; [exact R | discriminate]. }
  destruct (raise_for_status resp) as [[]|e] eqn:Hs.
  2:{ left. exists r, e. split; [exact R|].
      unfold raise_for_status in Hs.
      destruct ((400 <=? resp_status resp) && (resp_status resp <? 600));
        inversion Hs; discriminate. }
  destruct (json_loads (resp_text resp)) as [new|e] eqn:J.
  2:{ left. exists r, e. split; [exact R|].
      destruct (json_loads_raises _ _ J) as [-> | ->]; discriminate. }
  destruct (py_update_cases d new)
    as [[dm U] | [[e [U He]] | (items & e & -> & Hu & U)]];
    rewrite U in R; cbn [fst snd] in R.
  - right. right. exists r, dm. exact R.
  - left. exists r, e. rewrite S0 in R. split; assumption.
  - right. left. exists d, r, resp, items, e. repeat split; assumption.
Qed.

(** *** Every way [ensure_access_token] can end *)

Lemma ensure_cases (self : AuthManager) (w : World) :
  (exists e, ensure_access_token (self, w) = (Raise e, (self, w))) \/
  (exists v, ensure_access_token (self, w) = (Ok v, (self, w))) \/
  ensure_access_token (self, w) = refresh_access_token (self, w).
Proof.
  unfold ensure_access_token, bind, self_get, gets, lift, ret, raise.
  cbn [fst snd].
  destruct (truthy (tokens self)); cbn [negb]; [|left; eexists; reflexivity].
  destruct (py_get (tokens self) "access_token") as [v|e];
    [|left; eexists; reflexivity].
  destruct (truthy v); [right; left; eexists; reflexivity | right; right; reflexivity].
Qed.

Lemma browsers_app (a b : list Event) :
  browsers (a ++ b) = (browsers a ++ browsers b)%list.
Proof.
  induction a as [|e a IH]; [reflexivity|].
  destruct e; simpl; rewrite IH; reflexivity.
Qed.

Lemma load_tokens_eq (w : World) :
  _load_tokens w
  = (match files w CONFIG_PATH with
     | Some text => json_loads text
     | None => Ok (JObj [])
     end, w).
Proof.
  unfold _load_tokens, bind, path_exists, json_load, ret.
  destruct (files w CONFIG_PATH) eqn:E; cbn [fst snd]; rewrite ?E; reflexivity.
Qed.

Lemma same_session_refl (s : Proc) : same_session s s.
Proof. repeat split. Qed.

Lemma same_session_refresh (s : Proc) :
  same_session s (snd (refresh_access_token s)).
Proof.
  destruct s as [self w].
  destruct (refresh_cases self w)
    as [(e0 & E & _) | [(r & e0 & E & _) |
        [(d & r & resp & items & e0 & _ & _ & _ & _ & _ & _ & E) | (r & dm & E)]]];
    rewrite E; repeat split.
Qed.

Lemma same_session_login (s : Proc) : same_session s (snd (login s)).
Proof.
  destruct s as [self w].
  destruct (stdin w) as [|line rest] eqn:Hin.
  { rewrite (login_eof_eq self w Hin). repeat split. }
  destruct (answer w (login_request self (strip line))) as [resp|] eqn:Ha.
  2:{ rewrite (login_failure self w line rest ConnectionError Hin)
        by (rewrite Ha; reflexivity).
      repeat split. }
  destruct (raise_for_status resp) as [[]|e] eqn:Hs.
  2:{ rewrite (login_failure self w line rest e Hin)
        by (rewrite Ha; left; exact Hs).
      repeat split. }
  destruct (json_loads (resp_text resp)) as [toks|e] eqn:Hj.
  - rewrite (login_success self w line rest resp toks Hin Ha Hs Hj).
    repeat split.
  - rewrite (login_failure self w line rest e Hin)
      by (rewrite Ha; right; split; assumption).
    repeat split.
Qed.

(** *** Construction, continued *)

Lemma finish_eq (s cid sec uri : json) (w : World) :
  finish s cid sec uri w
  = (match (match files w CONFIG_PATH with
            | Some text => json_loads text
            | None => Ok (JObj [])
            end) with
     | Ok toks =>
         Ok (mkAuthManager s cid sec uri
               "offline read:profile read:recovery read:sleep read:workout"
               "whoop_sdk_state_12345" toks)
     | Raise e => Raise e
     end, w).
Proof.
  unfold finish, bind, ret. rewrite load_tokens_eq.
  destruct (files w CONFIG_PATH) as [text|]; [|reflexivity].
  destruct (json_loads text); reflexivity.
Qed.

(** Where [__init__] leaves the world: as it was, after a prompt that ran
    out of lines, or after a prompt that saved. *)
Lemma init_world_cases (w : World) :
  snd (init w) = w \/
  snd (init w) = starved w \/
  exists l1 l2 l3 rest,
    stdin w = l1 :: l2 :: l3 :: rest /\ snd (init w) = prompted w l1 l2 l3 rest.
Proof.
  rewrite init_eq.
  destruct (stored_settings w) as [s|e]; [|left; reflexivity].
  destruct (resolve w s ID_VAR "client_id") as [cid|]; [|left; reflexivity].
  destruct (resolve w s SECRET_VAR "client_secret") as [sec|]; [|left; reflexivity].
  destruct (py_get s "redirect_uri") as [uri|]; [|left; reflexivity].
  destruct (negb (truthy cid) || negb (truthy sec)).
  - destruct (stdin w) as [|l1 [|l2 [|l3 rest]]];
      try (right; left; reflexivity).
    right. right. exists l1, l2, l3, rest. split; [reflexivity|].
    apply finish_world.
  - left. apply finish_world.
Qed.

Lemma init_tokens (w w' : World) (mgr : AuthManager) :
  init w = (Ok mgr, w') ->
  match files w CONFIG_PATH with
  | Some text => json_loads text = Ok (tokens mgr)
  | None => tokens mgr = JObj []
  end.
Proof.
  intros Hi. rewrite init_eq in Hi.
  destruct (stored_settings w) as [s|e]; [|discriminate Hi].
  destruct (resolve w s ID_VAR "client_id") as [cid|]; [|discriminate Hi].
  destruct (resolve w s SECRET_VAR "client_secret") as [sec|]; [|discriminate Hi].
  destruct (py_get s "redirect_uri") as [uri|]; [|discriminate Hi].
  destruct (negb (truthy cid) || negb (truthy sec)).
  - destruct (stdin w) as [|l1 [|l2 [|l3 rest]]]; try discriminate Hi.
    rewrite finish_eq in Hi. unfold prompted in Hi. cbn [files Path_eqb] in Hi.
    destruct (files w CONFIG_PATH) as [text|].
    + destruct (json_loads text); inversion Hi; reflexivity.
    + inversion Hi; reflexivity.
  - rewrite finish_eq in Hi.
    destruct (files w CONFIG_PATH) as [text|].
    + destruct (json_loads text); inversion Hi; reflexivity.
    + inversion Hi; reflexivity.
Qed.

(* ------------------------------------------------------------------ *)
(** ** Further properties *)

(** X1. A login whose code exchange succeeds returns the TokenSet the
    endpoint sent, whatever it is, and that TokenSet replaces the previous
    one: it is the manager's token set and the content of the token file,
    from which it loads back.  The browser was opened once, on the
    authorization URL, and one request was posted, the exchange of the
    stripped code. *)
Theorem login_stores_exchanged_tokens
        (self : AuthManager) (w : World) (line : string) (rest : list string)
        (resp : Response) (toks : json) :
  stdin w = line :: rest ->
  answer w (login_request self (strip line)) = Some resp ->
  raise_for_status resp = Ok tt ->
  json_loads (resp_text resp) = Ok toks ->
  let out := login (self, w) in
  fst out = Ok toks /\
  tokens (fst (snd out)) = toks /\
  files (snd (snd out)) CONFIG_PATH = Some (json_dumps toks) /\
  _load_tokens (snd (snd out)) = (Ok toks, snd (snd out)) /\
  posts (trace (snd (snd out)))
  = (posts (trace w) ++ [login_request self (strip line)])%list /\
  browsers (trace (snd (snd out)))
  = (browsers (trace w) ++ [_build_auth_url self])%list.
Proof.
  intros Hin Ha Hs Hj out. subst out.
  rewrite (login_success self w line rest resp toks Hin Ha Hs Hj).
  cbn [fst snd]. repeat split.
  - rewrite load_tokens_eq. unfold logged_in. cbn [files Path_eqb].
    rewrite (json_loads_dumps toks (json_loads_wf _ _ Hj)). reflexivity.
  - unfold logged_in. cbn [trace]. rewrite !posts_app. simpl.
    reflexivity.
  - unfold logged_in. cbn [trace]. rewrite !browsers_app. simpl.
    reflexivity.
Qed.

Lemma login_stores_exchanged_tokens_witness :
  fst (login (manager_with (JObj [("access_token", JStr "old")]),
              console_world [" code-1 "]
                (replies 200 (JObj [("access_token", JStr "a");
                                    ("refresh_token", JStr "r")]))))
  = Ok (JObj [("access_token", JStr "a"); ("refresh_token", JStr "r")]).
Proof.
  exact (proj1 (login_stores_exchanged_tokens
                  (manager_with (JObj [("access_token", JStr "old")]))
                  (console_world [" code-1 "]
                     (replies 200 (JObj [("access_token", JStr "a");
                                         ("refresh_token", JStr "r")])))
                  " code-1 " []
                  (mkResponse 200 (json_dumps (JObj [("access_token", JStr "a");
                                                     ("refresh_token", JStr "r")])))
                  _ eq_refl eq_refl eq_refl eq_refl)).
Defined.

(** X2. A login whose code exchange is answered with a 4xx or 5xx status
    raises the HTTP error with the upstream status and body; the manager
    keeps the TokenSet it had, no file changes and nothing is written. *)
Theorem login_rejected_keeps_tokens
        (self : AuthManager) (w : World) (line : string) (rest : list string)
        (resp : Response) :
  stdin w = line :: rest ->
  answer w (login_request self (strip line)) = Some resp ->
  400 <= resp_status resp < 600 ->
  let out := login (self, w) in
  fst out = Raise (HTTPError (resp_status resp) (resp_text resp)) /\
  fst (snd out) = self /\
  files (snd (snd out)) = files w /\
  writes (trace (snd (snd out))) = writes (trace w).
Proof.
  intros Hin Ha Hs out. subst out.
  rewrite (login_failure self w line rest
             (HTTPError (resp_status resp) (resp_text resp)) Hin).
  - cbn [fst snd exchanged files trace]. repeat split.
    rewrite !writes_app. simpl. apply List.app_nil_r.
  - rewrite Ha. left. unfold raise_for_status.
    destruct (Z.leb_spec 400 (resp_status resp)); [|lia].
    destruct (Z.ltb_spec (resp_status resp) 600); [reflexivity | lia].
Qed.

Lemma login_rejected_keeps_tokens_witness :
  fst (snd (login (manager_with (JObj [("access_token", JStr "old")]),
                   console_world ["bad-code"]
                     (replies 400 (JObj [("error", JStr "invalid_grant")])))))
  = manager_with (JObj [("access_token", JStr "old")]).
Proof.
  refine (proj1 (proj2 (login_rejected_keeps_tokens
                          (manager_with (JObj [("access_token", JStr "old")]))
                          (console_world ["bad-code"]
                             (replies 400 (JObj [("error", JStr "invalid_grant")])))
                          "bad-code" []
                          (mkResponse 400
                             (json_dumps (JObj [("error", JStr "invalid_grant")])))
                          eq_refl eq_refl _))).
  simpl. lia.
Defined.

(** X3. A login that finds no line on the console raises EOFError after the
    browser has been opened: no request is posted, no file changes and the
    manager keeps its TokenSet. *)
Theorem login_without_code
        (self : AuthManager) (w : World) :
  stdin w = [] ->
  let out := login (self, w) in
  fst out = Raise EOFError /\
  fst (snd out) = self /\
  files (snd (snd out)) = files w /\
  posts (trace (snd (snd out))) = posts (trace w) /\
  browsers (trace (snd (snd out)))
  = (browsers (trace w) ++ [_build_auth_url self])%list.
Proof.
  intros Hin out. subst out. rewrite (login_eof_eq self w Hin).
  cbn [fst snd files trace]. repeat split.
  - rewrite posts_app. simpl. apply List.app_nil_r.
  - rewrite browsers_app. reflexivity.
Qed.

Lemma login_without_code_witness :
  fst (login (manager_with (JObj []), console_world [] (fun _ => None)))
  = Raise EOFError.
Proof.
  exact (proj1 (login_without_code (manager_with (JObj []))
                  (console_world [] (fun _ => None)) eq_refl)).
Defined.

(** X4. A login is all or nothing: whenever [login] raises, for want of a
    pasted code, a connection, a success status or a JSON body, the manager
    is the one before the call, no file has changed and nothing was
    written. *)
Theorem login_failure_changes_nothing
        (self self' : AuthManager) (w w' : World) (e : exn) :
  login (self, w) = (Raise e, (self', w')) ->
  self' = self /\ files w' = files w /\ writes (trace w') = writes (trace w).
Proof.
  intros H.
  assert (B : writes (login_banner self) = []) by reflexivity.
  destruct (stdin w) as [|line rest] eqn:Hin.
  { rewrite (login_eof_eq self w Hin) in H. inversion H; subst.
    cbn [files trace]. rewrite writes_app, B, List.app_nil_r. repeat split. }
  assert (X : forall e0,
             login (self, w) = (Raise e0, (self, exchanged self w line rest)) ->
             self' = self /\ files w' = files w /\
             writes (trace w') = writes (trace w)).
  { intros e0 E. rewrite E in H. inversion H; subst.
    unfold exchanged. cbn [files trace].
    rewrite !writes_app, B. simpl. rewrite List.app_nil_r. repeat split. }
  destruct (answer w (login_request self (strip line))) as [resp|] eqn:Ha.
  2:{ apply (X ConnectionError), (login_failure self w line rest _ Hin).
      rewrite Ha. reflexivity. }
  destruct (raise_for_status resp) as [[]|e1] eqn:Hs.
  2:{ apply (X e1), (login_failure self w line rest _ Hin).
      rewrite Ha. left. exact Hs. }
  destruct (json_loads (resp_text resp)) as [toks|e1] eqn:Hj.
  - rewrite (login_success self w line rest resp toks Hin Ha Hs Hj) in H.
    discriminate H.
  - apply (X e1), (login_failure self w line rest _ Hin).
    rewrite Ha. right. split; assumption.
Qed.

Lemma login_failure_changes_nothing_witness :
  manager_with (JObj [("access_token", JStr "old")])
  = manager_with (JObj [("access_token", JStr "old")]) /\
  files (exchanged (manager_with (JObj [("access_token", JStr "old")]))
           (console_world ["code-1"] (fun _ => None)) "code-1" [])
  = files (console_world ["code-1"] (fun _ => None)) /\
  writes (trace (exchanged (manager_with (JObj [("access_token", JStr "old")]))
                   (console_world ["code-1"] (fun _ => None)) "code-1" []))
  = writes (trace (console_world ["code-1"] (fun _ => None))).
Proof.
  exact (login_failure_changes_nothing
           (manager_with (JObj [("access_token", JStr "old")])) _
           (console_world ["code-1"] (fun _ => None)) _ ConnectionError eq_refl).
Defined.

(** X5. After a login that stored a mapping with a non-empty access_token,
    [ensure_access_token] returns that token from the cache: the state it
    leaves is the state login left, with no further request. *)
Theorem login_then_ensure
        (self : AuthManager) (w : World) (line : string) (rest : list string)
        (resp : Response) (d : dict) (v : json) :
  stdin w = line :: rest ->
  answer w (login_request self (strip line)) = Some resp ->
  raise_for_status resp = Ok tt ->
  json_loads (resp_text resp) = Ok (JObj d) ->
  dict_get "access_token" d = Some v ->
  truthy v = true ->
  ensure_access_token (snd (login (self, w))) = (Ok v, snd (login (self, w))).
Proof.
  intros Hin Ha Hs Hj Hv Tv.
  rewrite (login_success self w line rest resp (JObj d) Hin Ha Hs Hj).
  cbn [snd].
  apply (ensure_cached (with_tokens (JObj d) self) _ d v);
    [reflexivity | exact Hv | exact Tv].
Qed.

Lemma login_then_ensure_witness :
  fst (ensure_access_token
         (snd (login (manager_with (JObj []),
                      console_world ["code-1"]
                        (replies 200 (JObj [("access_token", JStr "a")]))))))
  = Ok (JStr "a").
Proof.
  rewrite (login_then_ensure
             (manager_with (JObj []))
             (console_world ["code-1"] (replies 200 (JObj [("access_token", JStr "a")])))
             "code-1" []
             (mkResponse 200 (json_dumps (JObj [("access_token", JStr "a")])))
             [("access_token", JStr "a")] (JStr "a")
             eq_refl eq_refl eq_refl eq_refl eq_refl eq_refl).
  reflexivity.
Defined.

(** X6. Tokens survive a restart: after a login that succeeded, every
    manager a later [__init__] builds in the world login left holds the
    TokenSet login returned, and when that is a mapping with a non-empty
    access_token, [ensure_access_token] on the new manager returns it
    without touching the world. *)
Theorem login_tokens_survive_restart
        (self : AuthManager) (w : World) (line : string) (rest : list string)
        (resp : Response) (toks : json) :
  stdin w = line :: rest ->
  answer w (login_request self (strip line)) = Some resp ->
  raise_for_status resp = Ok tt ->
  json_loads (resp_text resp) = Ok toks ->
  forall mgr2 w2,
    init (snd (snd (login (self, w)))) = (Ok mgr2, w2) ->
    tokens mgr2 = toks /\
    forall d v, toks = JObj d -> dict_get "access_token" d = Some v ->
                truthy v = true ->
                ensure_access_token (mgr2, w2) = (Ok v, (mgr2, w2)).
Proof.
  intros Hin Ha Hs Hj mgr2 w2 Hi.
  rewrite (login_success self w line rest resp toks Hin Ha Hs Hj) in Hi.
  cbn [snd] in Hi. apply init_tokens in Hi.
  unfold logged_in in Hi. cbn [files Path_eqb] in Hi.
  rewrite (json_loads_dumps toks (json_loads_wf _ _ Hj)) in Hi.
  assert (Ht : tokens mgr2 = toks) by congruence.
  split; [exact Ht|].
  intros d v Hd Hv Tv.
  apply (ensure_cached mgr2 w2 d v); [rewrite Ht; exact Hd | exact Hv | exact Tv].
Qed.

Lemma login_tokens_survive_restart_witness :
  option_map tokens
    (built (snd (snd (login
                        (manager_with (JObj []),
                         session_world [(ID_VAR, "id"); (SECRET_VAR, "secret")]
                           (JObj []) ["code-1"]
                           (replies 200 (JObj [("access_token", JStr "a")])))))))
  = Some (JObj [("access_token", JStr "a")]).
Proof.
  exact (f_equal Some
           (proj1 (login_tokens_survive_restart
                     (manager_with (JObj []))
                     (session_world [(ID_VAR, "id"); (SECRET_VAR, "secret")]
                        (JObj []) ["code-1"]
                        (replies 200 (JObj [("access_token", JStr "a")])))
                     "code-1" []
                     (mkResponse 200 (json_dumps (JObj [("access_token", JStr "a")])))
                     (JObj [("access_token", JStr "a")])
                     eq_refl eq_refl eq_refl eq_refl
                     (mkAuthManager _ _ _ _ _ _ (JObj [("access_token", JStr "a")]))
                     _ eq_refl))).
Defined.

(** X7. On a non-empty TokenSet that holds neither a usable access_token
    nor a refresh_token, [ensure_access_token] raises KeyError for
    refresh_token before any request: nothing is posted or written and the
    manager is unchanged. *)
Theorem ensure_without_refresh_token
        (self : AuthManager) (w : World) (d : dict) :
  tokens self = JObj d ->
  d <> [] ->
  match dict_get "access_token" d with
  | Some v => truthy v = false
  | None => True
  end ->
  dict_get "refresh_token" d = None ->
  ensure_access_token (self, w)
  = (Raise (KeyError "refresh_token"), (self, announced w)) /\
  posts (trace (announced w)) = posts (trace w) /\
  files (announced w) = files w.
Proof.
  intros Ht Hd Ha Hr.
  rewrite (ensure_goes_to_refresh self w d Ht Hd Ha). split.
  - unfold refresh_access_token, bind, io, self_get, gets, lift, print.
    cbn [fst snd]. rewrite Ht. cbn [py_getitem]. rewrite Hr. reflexivity.
  - unfold announced, log. cbn [trace files]. rewrite posts_app. simpl.
    rewrite List.app_nil_r. split; reflexivity.
Qed.

Lemma ensure_without_refresh_token_witness :
  fst (ensure_access_token
         (manager_with (JObj [("token_type", JStr "bearer")]),
          quiet_world (fun _ => None)))
  = Raise (KeyError "refresh_token").
Proof.
  pose proof (ensure_without_refresh_token
                (manager_with (JObj [("token_type", JStr "bearer")]))
                (quiet_world (fun _ => None))
                [("token_type", JStr "bearer")] eq_refl
                ltac:(discriminate) I eq_refl) as [H _].
  rewrite H. reflexivity.
Defined.

(** X8. A token file that holds no mapping: [ensure_access_token] treats
    every falsy value (null, false, 0, the empty string, list or mapping)
    as no tokens and raises the error that asks for a login, and raises
    AttributeError on every other value that is no mapping; either way
    manager and world are untouched and nothing is posted. *)
Theorem ensure_on_other_values (self : AuthManager) (w : World) :
  (truthy (tokens self) = false ->
   ensure_access_token (self, w)
   = (Raise (RuntimeError "No tokens found. Run Whoop(login=True) first."),
      (self, w))) /\
  (truthy (tokens self) = true ->
   (forall d, tokens self <> JObj d) ->
   ensure_access_token (self, w) = (Raise AttributeError, (self, w))).
Proof.
  split; [apply ensure_no_tokens|].
  intros T N.
  unfold ensure_access_token, bind, self_get, gets, lift, ret, raise.
  cbn [fst snd]. rewrite T. cbn [negb].
  destruct (tokens self) as [| | | | |d]; try reflexivity.
  exfalso. apply (N d). reflexivity.
Qed.

Lemma ensure_on_other_values_witness :
  fst (ensure_access_token (manager_with (JList []), quiet_world (fun _ => None)))
  = Raise (RuntimeError "No tokens found. Run Whoop(login=True) first.") /\
  fst (ensure_access_token
         (manager_with (JList [JStr "tok"]), quiet_world (fun _ => None)))
  = Raise AttributeError.
Proof.
  split.
  - rewrite (proj1 (ensure_on_other_values (manager_with (JList []))
                      (quiet_world (fun _ => None))) eq_refl).
    reflexivity.
  - rewrite (proj2 (ensure_on_other_values (manager_with (JList [JStr "tok"]))
                      (quiet_world (fun _ => None))) eq_refl
               ltac:(discriminate)).
    reflexivity.
Defined.

(** X9. [ensure_access_token] never retries: whatever the TokenSet and
    whatever the endpoint answers, a call posts nothing or posts exactly
    one request, the refresh of a stored refresh token. *)
Theorem ensure_posts_at_most_once (self : AuthManager) (w : World) :
  let w' := snd (snd (ensure_access_token (self, w))) in
  posts (trace w') = posts (trace w) \/
  exists r, py_getitem (tokens self) "refresh_token" = Ok r /\
            posts (trace w') = (posts (trace w) ++ [refresh_request self r])%list.
Proof.
  intros w'. subst w'.
  destruct (ensure_cases self w) as [[e E] | [[v E] | E]]; rewrite E;
    [left; reflexivity | left; reflexivity |].
  destruct (py_getitem (tokens self) "refresh_token") as [r|e] eqn:G.
  - right. exists r. split; [reflexivity|].
    destruct (tokens self) as [| | | | |d] eqn:Ht; try discriminate G.
    cbn [py_getitem] in G.
    destruct (dict_get "refresh_token" d) as [r'|] eqn:Hr; inversion G; subst.
    apply (refresh_posts_once self w d r Ht Hr).
  - left.
    unfold refresh_access_token, bind, io, self_get, gets, lift, print.
    cbn [fst snd]. rewrite G. cbn [snd]. unfold log. cbn [trace].
    rewrite posts_app. simpl. apply List.app_nil_r.
Qed.

(** X10. The token a refresh obtained is cached: when [ensure_access_token]
    had to refresh and the response carried a non-empty access_token, a
    second call returns that token and leaves the state of the first call
    as it is, so it posts nothing. *)
Theorem ensure_twice_refreshes_once
        (self : AuthManager) (w : World) (d new : dict) (r a : json)
        (resp : Response) :
  tokens self = JObj d ->
  dict_get "access_token" d = None ->
  dict_get "refresh_token" d = Some r ->
  answer w (refresh_request self r) = Some resp ->
  raise_for_status resp = Ok tt ->
  json_loads (resp_text resp) = Ok (JObj new) ->
  dict_get "access_token" new = Some a ->
  truthy a = true ->
  ensure_access_token (snd (ensure_access_token (self, w)))
  = (Ok a, snd (ensure_access_token (self, w))).
Proof.
  intros Ht Ha Hr Hresp Hs Hj Hnew Ta.
  assert (E : ensure_access_token (self, w) = refresh_access_token (self, w)).
  { apply (ensure_goes_to_refresh self w d Ht).
    - intros ->. discriminate Hr.
    - rewrite Ha. exact I. }
  rewrite E, (refresh_success self w d new r resp Ht Hr Hresp Hs Hj). cbn [snd].
  apply (ensure_cached (with_tokens (JObj (dict_update d new)) self) _
           (dict_update d new) a); [reflexivity | | exact Ta].
  apply dict_get_update_present; [|exact Hnew].
  apply json_loads_wf in Hj. rewrite wf_json_obj in Hj.
  apply andb_true_iff in Hj. apply nodup_keys_NoDup. exact (proj1 Hj).
Qed.

Lemma ensure_twice_refreshes_once_witness :
  fst (ensure_access_token
         (snd (ensure_access_token
                 (manager_with (JObj [("refresh_token", JStr "r")]),
                  quiet_world (replies 200 (JObj [("access_token", JStr "new")]))))))
  = Ok (JStr "new").
Proof.
  rewrite (ensure_twice_refreshes_once
             (manager_with (JObj [("refresh_token", JStr "r")]))
             (quiet_world (replies 200 (JObj [("access_token", JStr "new")])))
             [("refresh_token", JStr "r")] [("access_token", JStr "new")]
             (JStr "r") (JStr "new")
             (mkResponse 200 (json_dumps (JObj [("access_token", JStr "new")])))
             eq_refl eq_refl eq_refl eq_refl eq_refl eq_refl eq_refl eq_refl).
  reflexivity.
Defined.

(** X11. A refresh that fails writes nothing.  Whenever
    [refresh_access_token] raises an exception of Python other than the
    KeyError for a missing access_token of its last line, no file has
    changed and nothing was written.  The manager is the one before the
    call, with one exception: when the endpoint answered a success status
    and a JSON array, [self.tokens.update] has stored the pairs that come
    before the element it rejects, and [self.tokens] keeps them, in memory
    only.  Connection failures, error statuses, bodies that are no JSON and
    bodies that are a number, a boolean, null or a str leave the manager
    as it was. *)
Theorem refresh_failure_writes_nothing
        (self self' : AuthManager) (w w' : World) (e : exn) :
  refresh_access_token (self, w) = (Raise e, (self', w')) ->
  e <> KeyError "access_token" ->
  e <> Unsupported ->
  files w' = files w /\
  writes (trace w') = writes (trace w) /\
  (self' = self \/
   exists d r resp items,
     tokens self = JObj d /\
     dict_get "refresh_token" d = Some r /\
     answer w (refresh_request self r) = Some resp /\
     raise_for_status resp = Ok tt /\
     json_loads (resp_text resp) = Ok (JList items) /\
     snd (update_seq d items) = Raise e /\
     self' = with_tokens (JObj (fst (update_seq d items))) self).
Proof.
  intros H He _.
  destruct (refresh_cases self w)
    as [(e0 & E & _) | [(r & e0 & E & _) |
        [(d & r & resp & items & e0 & Ht & Hr & Ha & Hs & Hj & Hu & E) |
         (r & dm & E)]]];
    rewrite E in H.
  - inversion H; subst. unfold announced, log. cbn [files trace].
    rewrite writes_app. simpl. rewrite List.app_nil_r. repeat split.
    left. reflexivity.
  - inversion H; subst. unfold posted. cbn [files trace].
    rewrite writes_app. simpl. rewrite List.app_nil_r. repeat split.
    left. reflexivity.
  - inversion H; subst. unfold posted. cbn [files trace].
    rewrite writes_app. simpl. rewrite List.app_nil_r. repeat split.
    right. exists d, r, resp, items. repeat split; assumption.
  - exfalso. cbn [py_getitem] in H.
    destruct (dict_get "access_token" dm); inversion H; subst.
    apply He. reflexivity.
Qed.

Lemma refresh_failure_writes_nothing_witness :
  refresh_access_token
    (manager_with (JObj [("refresh_token", JStr "r")]),
     quiet_world (replies 200 (JList [JList [JStr "access_token"; JStr "x"];
                                      JInt 5])))
  = (Raise TypeError,
     (manager_with (JObj [("refresh_token", JStr "r");
                          ("access_token", JStr "x")]),
      posted (quiet_world (replies 200 (JList [JList [JStr "access_token";
                                                      JStr "x"]; JInt 5])))
        (refresh_request (manager_with (JObj [("refresh_token", JStr "r")]))
           (JStr "r")))) /\
  writes (trace (posted
                   (quiet_world (replies 200 (JList [JList [JStr "access_token";
                                                            JStr "x"]; JInt 5])))
                   (refresh_request
                      (manager_with (JObj [("refresh_token", JStr "r")]))
                      (JStr "r"))))
  = [].
Proof.
  split; [reflexivity|].
  exact (proj1 (proj2 (refresh_failure_writes_nothing
                         (manager_with (JObj [("refresh_token", JStr "r")]))
                         (manager_with (JObj [("refresh_token", JStr "r");
                                              ("access_token", JStr "x")]))
                         (quiet_world
                            (replies 200 (JList [JList [JStr "access_token";
                                                        JStr "x"]; JInt 5])))
                         _ TypeError eq_refl
                         ltac:(discriminate) ltac:(discriminate)))).
Defined.

(** X12. A successful refresh whose response carries no access_token still
    merges and stores the response; what the call then returns is the
    access_token that was stored before, and when there was none it raises
    KeyError after the token file has been written. *)
Theorem refresh_without_new_access_token
        (self : AuthManager) (w : World) (d new : dict) (r : json)
        (resp : Response) :
  tokens self = JObj d ->
  dict_get "refresh_token" d = Some r ->
  answer w (refresh_request self r) = Some resp ->
  raise_for_status resp = Ok tt ->
  json_loads (resp_text resp) = Ok (JObj new) ->
  dict_get "access_token" new = None ->
  let out := refresh_access_token (self, w) in
  fst out = match dict_get "access_token" d with
            | Some v => Ok v
            | None => Raise (KeyError "access_token")
            end /\
  tokens (fst (snd out)) = JObj (dict_update d new) /\
  files (snd (snd out)) CONFIG_PATH = Some (json_dumps (JObj (dict_update d new))).
Proof.
  intros Ht Hr Hresp Hs Hj Hn out. subst out.
  rewrite (refresh_success self w d new r resp Ht Hr Hresp Hs Hj).
  cbn [fst snd py_getitem].
  rewrite (dict_get_update_absent "access_token" new d Hn).
  repeat split.
Qed.

Lemma refresh_without_new_access_token_witness :
  fst (refresh_access_token
         (manager_with (JObj [("access_token", JStr "old");
                              ("refresh_token", JStr "r")]),
          quiet_world (replies 200 (JObj [("token_type", JStr "bearer")]))))
  = Ok (JStr "old").
Proof.
  exact (proj1 (refresh_without_new_access_token
                  (manager_with (JObj [("access_token", JStr "old");
                                       ("refresh_token", JStr "r")]))
                  (quiet_world (replies 200 (JObj [("token_type", JStr "bearer")])))
                  [("access_token", JStr "old"); ("refresh_token", JStr "r")]
                  [("token_type", JStr "bearer")] (JStr "r")
                  (mkResponse 200 (json_dumps (JObj [("token_type", JStr "bearer")])))
                  eq_refl eq_refl eq_refl eq_refl eq_refl eq_refl)).
Defined.

(** X13. Refresh tokens rotate: after a successful refresh the next refresh
    posts the refresh_token the response reissued, and the stored one when
    the response reissued none. *)
Theorem refresh_uses_reissued_token
        (self : AuthManager) (w : World) (d new : dict) (r : json)
        (resp : Response) :
  tokens self = JObj d ->
  dict_get "refresh_token" d = Some r ->
  answer w (refresh_request self r) = Some resp ->
  raise_for_status resp = Ok tt ->
  json_loads (resp_text resp) = Ok (JObj new) ->
  posts (trace (snd (snd (refresh_access_token
                            (snd (refresh_access_token (self, w)))))))
  = (posts (trace w) ++
     [refresh_request self r;
      refresh_request self
        (match dict_get "refresh_token" new with
         | Some r' => r'
         | None => r
         end)])%list.
Proof.
  intros Ht Hr Hresp Hs Hj.
  rewrite (refresh_success self w d new r resp Ht Hr Hresp Hs Hj). cbn [snd].
  assert (N : NoDup (map fst new)).
  { apply json_loads_wf in Hj. rewrite wf_json_obj in Hj.
    apply andb_true_iff in Hj. apply nodup_keys_NoDup. exact (proj1 Hj). }
  set (r2 := match dict_get "refresh_token" new with Some r' => r' | None => r end).
  assert (G : dict_get "refresh_token" (dict_update d new) = Some r2).
  { subst r2. destruct (dict_get "refresh_token" new) as [r'|] eqn:E.
    - apply dict_get_update_present; assumption.
    - rewrite dict_get_update_absent by exact E. exact Hr. }
  rewrite (refresh_posts_once (with_tokens (JObj (dict_update d new)) self)
             (refreshed w (refresh_request self r) (JObj (dict_update d new)))
             (dict_update d new) r2 eq_refl G).
  unfold refreshed, refresh_request. cbn [trace client_id client_secret with_tokens].
  rewrite posts_app. simpl. rewrite <- List.app_assoc. reflexivity.
Qed.

Lemma refresh_uses_reissued_token_witness :
  posts (trace (snd (snd (refresh_access_token
                            (snd (refresh_access_token
                                    (manager_with (JObj [("refresh_token", JStr "r1")]),
                                     quiet_world (replies 200
                                       (JObj [("access_token", JStr "a");
                                              ("refresh_token", JStr "r2")])))))))))
  = [refresh_request (manager_with (JObj [])) (JStr "r1");
     refresh_request (manager_with (JObj [])) (JStr "r2")].
Proof.
  exact (refresh_uses_reissued_token
           (manager_with (JObj [("refresh_token", JStr "r1")]))
           (quiet_world (replies 200 (JObj [("access_token", JStr "a");
                                            ("refresh_token", JStr "r2")])))
           [("refresh_token", JStr "r1")]
           [("access_token", JStr "a"); ("refresh_token", JStr "r2")]
           (JStr "r1")
           (mkResponse 200 (json_dumps (JObj [("access_token", JStr "a");
                                              ("refresh_token", JStr "r2")])))
           eq_refl eq_refl eq_refl eq_refl eq_refl).
Defined.

(** X14. What a refresh stored is what a later load reads: for a TokenSet
    without repeated keys, [_load_tokens] in the world a successful refresh
    leaves returns the merged TokenSet. *)
Theorem refresh_then_load
        (self : AuthManager) (w : World) (d new : dict) (r : json)
        (resp : Response) :
  tokens self = JObj d ->
  wf_json (JObj d) = true ->
  dict_get "refresh_token" d = Some r ->
  answer w (refresh_request self r) = Some resp ->
  raise_for_status resp = Ok tt ->
  json_loads (resp_text resp) = Ok (JObj new) ->
  let w' := snd (snd (refresh_access_token (self, w))) in
  _load_tokens w' = (Ok (JObj (dict_update d new)), w').
Proof.
  intros Ht W Hr Hresp Hs Hj w'. subst w'.
  rewrite (refresh_success self w d new r resp Ht Hr Hresp Hs Hj). cbn [snd].
  rewrite load_tokens_eq. unfold refreshed. cbn [files Path_eqb].
  rewrite json_loads_dumps; [reflexivity|].
  apply dict_update_wf; [exact W | apply (json_loads_wf _ _ Hj)].
Qed.

Lemma refresh_then_load_witness :
  fst (_load_tokens
         (snd (snd (refresh_access_token
                      (manager_with (JObj [("refresh_token", JStr "r")]),
                       quiet_world (replies 200 (JObj [("access_token", JStr "new")])))))))
  = Ok (JObj [("refresh_token", JStr "r"); ("access_token", JStr "new")]).
Proof.
  rewrite (refresh_then_load
             (manager_with (JObj [("refresh_token", JStr "r")]))
             (quiet_world (replies 200 (JObj [("access_token", JStr "new")])))
             [("refresh_token", JStr "r")] [("access_token", JStr "new")]
             (JStr "r")
             (mkResponse 200 (json_dumps (JObj [("access_token", JStr "new")])))
             eq_refl eq_refl eq_refl eq_refl eq_refl eq_refl).
  reflexivity.
Defined.

(** X15. Within a session the credentials are fixed: no call of
    [ensure_access_token], [refresh_access_token] or [login], however it
    ends, changes the settings, client id, client secret, redirect URI,
    scopes or state of the manager, the environment, the settings file or
    the endpoint.  Only the TokenSet, the token file and the console move. *)
Theorem session_keeps_credentials (s : Proc) :
  same_session s (snd (ensure_access_token s)) /\
  same_session s (snd (refresh_access_token s)) /\
  same_session s (snd (login s)).
Proof.
  split; [|split; [apply same_session_refresh | apply same_session_login]].
  destruct s as [self w].
  destruct (ensure_cases self w) as [[e E] | [[v E] | E]]; rewrite E;
    [apply same_session_refl | apply same_session_refl |
     apply same_session_refresh].
Qed.

(** X16. Constructing a manager is local: however [__init__] ends, it posts
    no request and opens no browser, and it leaves the environment, the
    endpoint and the token file as they were. *)
Theorem init_is_local (w : World) :
  let w' := snd (init w) in
  posts (trace w') = posts (trace w) /\
  browsers (trace w') = browsers (trace w) /\
  files w' CONFIG_PATH = files w CONFIG_PATH /\
  environ w' = environ w /\
  endpoint w' = endpoint w.
Proof.
  intros w'. subst w'.
  destruct (init_world_cases w) as [E | [E | (l1 & l2 & l3 & rest & _ & E)]];
    rewrite E.
  - repeat split.
  - unfold starved. cbn [trace files environ endpoint].
    rewrite posts_app, browsers_app.
    destruct (stdin w) as [|a [|b [|c l]]]; simpl; rewrite !List.app_nil_r;
      repeat split.
  - unfold prompted. cbn [trace files environ endpoint Path_eqb].
    rewrite posts_app, browsers_app. simpl. rewrite !List.app_nil_r.
    repeat split.
Qed.

(** X17. Every manager [__init__] builds has the fixed scopes and the fixed
    state value, and a redirect URI that one rule settles.  When both
    credentials are resolvable and no prompt runs, it is the value the
    settings file holds, and https://www.google.com when that value is
    missing, empty or falsy in another way.  When the prompt runs, it is
    the third line typed, stripped, and https://www.google.com when that
    line is blank; the stored value is not used.  The redirect URI is
    therefore never empty. *)
Theorem init_fixed_fields (w w' : World) (mgr : AuthManager) :
  init w = (Ok mgr, w') ->
  scopes mgr = "offline read:profile read:recovery read:sleep read:workout" /\
  state mgr = "whoop_sdk_state_12345" /\
  truthy (redirect_uri mgr) = true /\
  (if resolvable w ID_VAR "client_id" && resolvable w SECRET_VAR "client_secret"
   then redirect_uri mgr
        = match settings_value w "redirect_uri" with
          | Some v => v
          | None => JStr DEFAULT_REDIRECT
          end
   else exists l1 l2 l3 rest,
          stdin w = l1 :: l2 :: l3 :: rest /\
          redirect_uri mgr
          = JStr (if (strip l3 =? "")%string then DEFAULT_REDIRECT else strip l3)).
Proof.
  intros Hi. rewrite init_eq in Hi.
  destruct (stored_settings w) as [s|e] eqn:Hs; [|discriminate Hi].
  destruct (resolve w s ID_VAR "client_id") as [cid|] eqn:E1; [|discriminate Hi].
  destruct (resolve w s SECRET_VAR "client_secret") as [sec|] eqn:E2;
    [|discriminate Hi].
  destruct (py_get s "redirect_uri") as [uri|] eqn:E3; [|discriminate Hi].
  assert (P : forall x, truthy (py_or x (JStr DEFAULT_REDIRECT)) = true).
  { intros x. unfold py_or. destruct (truthy x) eqn:T; [exact T | reflexivity]. }
  assert (Q : forall l, py_or (JStr l) (JStr DEFAULT_REDIRECT)
                        = JStr (if (l =? "")%string then DEFAULT_REDIRECT else l)).
  { intros l. unfold py_or. cbn [truthy].
    destruct (String.eqb l ""); reflexivity. }
  assert (U : py_or uri (JStr DEFAULT_REDIRECT)
              = match settings_value w "redirect_uri" with
                | Some v => v
                | None => JStr DEFAULT_REDIRECT
                end).
  { unfold py_or. destruct (truthy uri) eqn:T.
    - rewrite (settings_value_get w s _ uri Hs E3 T). reflexivity.
    - unfold settings_value. rewrite Hs.
      destruct s; try discriminate E3. cbn [py_get] in E3.
      destruct (dict_get "redirect_uri" d) as [v|]; [|reflexivity].
      inversion E3; subst. rewrite T. reflexivity. }
  destruct (resolvable w ID_VAR "client_id" &&
            resolvable w SECRET_VAR "client_secret") eqn:R.
  - apply andb_true_iff in R. destruct R as [R1 R2].
    destruct (resolvable_truthy w _ _ _ Hs R1) as (v1 & V1 & T1).
    destruct (resolvable_truthy w _ _ _ Hs R2) as (v2 & V2 & T2).
    rewrite E1 in V1. rewrite E2 in V2. inversion V1; inversion V2; subst.
    rewrite T1, T2 in Hi. cbn [negb orb] in Hi.
    rewrite finish_eq in Hi.
    destruct (match files _ CONFIG_PATH with Some text => json_loads text
                                           | None => Ok (JObj []) end);
      inversion Hi; subst. cbn [scopes state redirect_uri].
    repeat split; [apply P | exact U].
  - assert (C : negb (truthy cid) || negb (truthy sec) = true).
    { apply andb_false_iff in R. destruct R as [R | R].
      - rewrite (unresolvable_falsy w _ _ _ cid Hs R E1). reflexivity.
      - rewrite (unresolvable_falsy w _ _ _ sec Hs R E2). apply orb_true_r. }
    rewrite C in Hi.
    destruct (stdin w) as [|l1 [|l2 [|l3 rest]]]; try discriminate Hi.
    rewrite finish_eq in Hi.
    destruct (match files _ CONFIG_PATH with Some text => json_loads text
                                           | None => Ok (JObj []) end);
      inversion Hi; subst. cbn [scopes state redirect_uri].
    repeat split; [apply P|].
    exists l1, l2, l3, rest. split; [reflexivity | apply Q].
Qed.

Lemma init_fixed_fields_witness :
  option_map redirect_uri
    (built (setup_world [(ID_VAR, "from-env"); (SECRET_VAR, "env-secret")]
              (JObj [("redirect_uri", JStr "")]) []))
  = Some (JStr "https://www.google.com") /\
  option_map redirect_uri
    (built (setup_world [(ID_VAR, "from-env"); (SECRET_VAR, "env-secret")]
              (JObj [("redirect_uri", JStr "https://stored.example/cb")]) []))
  = Some (JStr "https://stored.example/cb") /\
  option_map redirect_uri
    (built (setup_world [] (JObj [("redirect_uri", JStr "https://stored.example/cb")])
              ["id"; "secret"; "  "]))
  = Some (JStr "https://www.google.com") /\
  option_map redirect_uri
    (built (setup_world [] (JObj [("redirect_uri", JStr "https://stored.example/cb")])
              ["id"; "secret"; " http://localhost:8080/cb "]))
  = Some (JStr "http://localhost:8080/cb").
Proof.
  split; [|split; [|split]].
  - exact (f_equal Some
             (proj2 (proj2 (proj2
                (init_fixed_fields
                   (setup_world [(ID_VAR, "from-env"); (SECRET_VAR, "env-secret")]
                      (JObj [("redirect_uri", JStr "")]) [])
                   _ (mkAuthManager _ _ _ (JStr "https://www.google.com") _ _ _)
                   eq_refl))))).
  - exact (f_equal Some
             (proj2 (proj2 (proj2
                (init_fixed_fields
                   (setup_world [(ID_VAR, "from-env"); (SECRET_VAR, "env-secret")]
                      (JObj [("redirect_uri", JStr "https://stored.example/cb")]) [])
                   _ (mkAuthManager _ _ _ (JStr "https://stored.example/cb") _ _ _)
                   eq_refl))))).
  - destruct (proj2 (proj2 (proj2
                (init_fixed_fields
                   (setup_world [] (JObj [("redirect_uri",
                                            JStr "https://stored.example/cb")])
                      ["id"; "secret"; "  "])
                   _ (mkAuthManager _ _ _ (JStr "https://www.google.com") _ _ _)
                   eq_refl))))
      as (l1 & l2 & l3 & rest & Hin & Hr).
    injection Hin as <- <- <- <-. exact (f_equal Some Hr).
  - destruct (proj2 (proj2 (proj2
                (init_fixed_fields
                   (setup_world [] (JObj [("redirect_uri",
                                            JStr "https://stored.example/cb")])
                      ["id"; "secret"; " http://localhost:8080/cb "])
                   _ (mkAuthManager _ _ _ (JStr "http://localhost:8080/cb") _ _ _)
                   eq_refl))))
      as (l1 & l2 & l3 & rest & Hin & Hr).
    injection Hin as <- <- <- <-. exact (f_equal Some Hr).
Defined.

(** X18. A settings file that does not hold a JSON mapping stops the
    construction, whatever the environment supplies: a text that is no JSON
    raises the decoder's error, a JSON value that is no mapping raises
    AttributeError; nothing is prompted and the world is untouched. *)
Theorem init_rejects_bad_settings (w : World) (text : string) :
  files w SETTINGS_PATH = Some text ->
  (forall e, json_loads text = Raise e -> init w = (Raise e, w)) /\
  (forall s, json_loads text = Ok s -> (forall d, s <> JObj d) ->
             init w = (Raise AttributeError, w)).
Proof.
  intros Hf. split.
  - intros e Hj. rewrite init_eq. unfold stored_settings. rewrite Hf, Hj.
    reflexivity.
  - intros s Hj N. rewrite init_eq. unfold stored_settings. rewrite Hf, Hj.
    assert (G : forall k, py_get s k = Raise AttributeError).
    { intros k. destruct s; try reflexivity. exfalso. apply (N d). reflexivity. }
    unfold resolve. rewrite !G.
    destruct (truthy (getenv_json w ID_VAR)); [|reflexivity].
    destruct (truthy (getenv_json w SECRET_VAR)); reflexivity.
Qed.

Lemma init_rejects_bad_settings_witness :
  fst (init (setup_world [(ID_VAR, "from-env"); (SECRET_VAR, "env-secret")]
               (JList []) []))
  = Raise AttributeError.
Proof.
  rewrite (proj2 (init_rejects_bad_settings
                    (setup_world [(ID_VAR, "from-env"); (SECRET_VAR, "env-secret")]
                       (JList []) [])
                    (json_dumps (JList [])) eq_refl)
             (JList []) eq_refl ltac:(discriminate)).
  reflexivity.
Defined.

(** X19. The TokenSet of a manager is what the token file held when
    [__init__] ran, prompt or no prompt: the value the file parses to, or
    the empty mapping when there is no file.  A token file that does not
    parse stops the construction with the decoder's error, even when the
    credentials are all resolvable. *)
Theorem init_reads_token_file (w : World) :
  (forall mgr w',
      init w = (Ok mgr, w') ->
      match files w CONFIG_PATH with
      | Some text => json_loads text = Ok (tokens mgr)
      | None => tokens mgr = JObj []
      end) /\
  (forall text e d,
      files w CONFIG_PATH = Some text ->
      json_loads text = Raise e ->
      stored_settings w = Ok (JObj d) ->
      resolvable w ID_VAR "client_id" = true ->
      resolvable w SECRET_VAR "client_secret" = true ->
      init w = (Raise e, w)).
Proof.
  split; [intros mgr w' Hi; apply (init_tokens w w' mgr Hi)|].
  intros text e d Hf Hj Hs R1 R2. rewrite init_eq, Hs.
  destruct (resolvable_truthy w _ _ _ Hs R1) as (cid & -> & T1).
  destruct (resolvable_truthy w _ _ _ Hs R2) as (sec & -> & T2).
  cbn [py_get]. rewrite T1, T2. cbn [negb orb].
  rewrite finish_eq, Hf, Hj. reflexivity.
Qed.

Lemma init_reads_token_file_witness :
  option_map tokens
    (built (setup_world [(ID_VAR, "id"); (SECRET_VAR, "secret")] (JObj []) []))
  = Some (JObj []).
Proof.
  exact (f_equal Some
           (proj1 (init_reads_token_file
                     (setup_world [(ID_VAR, "id"); (SECRET_VAR, "secret")]
                        (JObj []) []))
                  (mkAuthManager _ _ _ _ _ _ (JObj [])) _ eq_refl)).
Defined.

(** X20. A prompt that runs out of input saves nothing: when a credential
    is missing and fewer than three lines wait on the console, [__init__]
    raises EOFError, no file has changed and nothing was written, though
    the lines that were there are consumed. *)
Theorem init_prompt_eof_saves_nothing (w : World) (d : dict) :
  stored_settings w = Ok (JObj d) ->
  resolvable w ID_VAR "client_id" && resolvable w SECRET_VAR "client_secret" = false ->
  (List.length (stdin w) < 3)%nat ->
  let out := init w in
  fst out = Raise EOFError /\
  files (snd out) = files w /\
  writes (trace (snd out)) = writes (trace w) /\
  stdin (snd out) = [].
Proof.
  intros Hs R Hl out. subst out. rewrite init_eq, Hs.
  assert (G : forall var key, exists v, resolve w (JObj d) var key = Ok v).
  { intros var key. unfold resolve.
    destruct (truthy (getenv_json w var)); eexists; reflexivity. }
  destruct (G ID_VAR "client_id") as [cid E1].
  destruct (G SECRET_VAR "client_secret") as [sec E2].
  rewrite E1, E2. cbn [py_get].
  assert (C : negb (truthy cid) || negb (truthy sec) = true).
  { apply andb_false_iff in R. destruct R as [R | R].
    - rewrite (unresolvable_falsy w _ _ _ cid Hs R E1). reflexivity.
    - rewrite (unresolvable_falsy w _ _ _ sec Hs R E2). apply orb_true_r. }
  rewrite C.
  assert (W : writes (trace (starved w)) = writes (trace w)).
  { unfold starved. cbn [trace]. rewrite writes_app.
    destruct (stdin w) as [|a [|b [|c l]]]; simpl; rewrite ?List.app_nil_r;
      reflexivity. }
  destruct (stdin w) as [|l1 [|l2 [|l3 rest]]] eqn:Hin;
    try (cbn [List.length] in Hl; lia);
    cbn [fst snd]; repeat split; exact W.
Qed.

Lemma init_prompt_eof_saves_nothing_witness :
  fst (init (setup_world [] (JObj []) ["typed-id"; "typed-secret"]))
  = Raise EOFError.
Proof.
  refine (proj1 (init_prompt_eof_saves_nothing
                   (setup_world [] (JObj []) ["typed-id"; "typed-secret"])
                   [] eq_refl eq_refl _)).
  simpl. lia.
Defined.

(** X21. Credentials typed at the prompt are remembered: when the
    environment supplies neither credential and non-blank ones were typed,
    a later [__init__] in the world the first one left does not prompt, it
    leaves that world untouched, and any manager it builds has exactly the
    typed triple. *)
Theorem init_remembers_typed_credentials
        (w : World) (d : dict) (l1 l2 l3 : string) (rest : list string) :
  stored_settings w = Ok (JObj d) ->
  resolvable w ID_VAR "client_id" && resolvable w SECRET_VAR "client_secret" = false ->
  stdin w = l1 :: l2 :: l3 :: rest ->
  env_value w ID_VAR = None ->
  env_value w SECRET_VAR = None ->
  strip l1 <> "" ->
  strip l2 <> "" ->
  let w1 := snd (init w) in
  snd (init w1) = w1 /\
  forall mgr2 w2, init w1 = (Ok mgr2, w2) ->
                  credentials mgr2 = typed_credentials l1 l2 l3.
Proof.
  intros Hs R Hin E1 E2 N1 N2 w1. subst w1.
  rewrite (init_prompt_world w d l1 l2 l3 rest Hs R Hin).
  set (w1 := prompted w l1 l2 l3 rest).
  assert (S1 : stored_settings w1 = Ok (typed_credentials l1 l2 l3)).
  { unfold stored_settings, w1, prompted. cbn [files Path_eqb].
    apply json_loads_dumps, typed_credentials_wf. }
  assert (V1 : env_value w1 ID_VAR = None) by exact E1.
  assert (V2 : env_value w1 SECRET_VAR = None) by exact E2.
  assert (T1 : truthy (JStr (strip l1)) = true)
    by (cbn [truthy]; apply negb_true_iff, String.eqb_neq; exact N1).
  assert (T2 : truthy (JStr (strip l2)) = true)
    by (cbn [truthy]; apply negb_true_iff, String.eqb_neq; exact N2).
  assert (G1 : resolve w1 (typed_credentials l1 l2 l3) ID_VAR "client_id"
               = Ok (JStr (strip l1)))
    by (rewrite (resolve_settings _ _ _ _ V1); reflexivity).
  assert (G2 : resolve w1 (typed_credentials l1 l2 l3) SECRET_VAR "client_secret"
               = Ok (JStr (strip l2)))
    by (rewrite (resolve_settings _ _ _ _ V2); reflexivity).
  assert (G3 : py_get (typed_credentials l1 l2 l3) "redirect_uri"
               = Ok (py_or (JStr (strip l3)) (JStr DEFAULT_REDIRECT)))
    by reflexivity.
  assert (I : init w1
              = finish (typed_credentials l1 l2 l3) (JStr (strip l1))
                  (JStr (strip l2))
                  (py_or (py_or (JStr (strip l3)) (JStr DEFAULT_REDIRECT))
                     (JStr DEFAULT_REDIRECT)) w1).
  { rewrite init_eq, S1, G1, G2, G3, T1, T2. reflexivity. }
  rewrite I. split; [apply finish_world|].
  intros mgr2 w2 H.
  assert (F : fst (finish (typed_credentials l1 l2 l3) (JStr (strip l1))
                     (JStr (strip l2))
                     (py_or (py_or (JStr (strip l3)) (JStr DEFAULT_REDIRECT))
                        (JStr DEFAULT_REDIRECT)) w1) = Ok mgr2)
    by (rewrite H; reflexivity).
  apply finish_result in F. destruct F as (_ & F1 & F2 & F3).
  unfold credentials. rewrite F1, F2, F3. unfold typed_credentials, py_or.
  destruct (truthy (JStr (strip l3))) eqn:T3; [rewrite T3|]; reflexivity.
Qed.

Lemma init_remembers_typed_credentials_witness :
  option_map credentials
    (built (snd (init (setup_world [] (JObj []) [" id "; "secret"; ""]))))
  = Some (typed_credentials " id " "secret" "").
Proof.
  exact (f_equal Some
           (proj2 (init_remembers_typed_credentials
                     (setup_world [] (JObj []) [" id "; "secret"; ""])
                     [] " id " "secret" "" []
                     eq_refl eq_refl eq_refl eq_refl eq_refl
                     ltac:(discriminate) ltac:(discriminate))
                  (mkAuthManager _ (JStr "id") (JStr "secret")
                     (JStr DEFAULT_REDIRECT) _ _ _)
                  _ eq_refl)).
Defined.

(** X22. The authorization URL reads back: for every manager whose client
    id, redirect URI, scopes and state are not empty, the query of the URL
    [_build_auth_url] builds decodes to exactly five parameters, the
    client id, response_type=code, the redirect URI, the scopes and the
    state, each with the value the manager holds, whatever characters the
    values contain. *)
Theorem build_auth_url_reads_back (self : AuthManager) :
  client_id self <> JStr "" ->
  redirect_uri self <> JStr "" ->
  scopes self <> "" ->
  state self <> "" ->
  parse_qsl (url_query (_build_auth_url self))
  = Some [("client_id", py_str (client_id self));
          ("response_type", "code");
          ("redirect_uri", py_str (redirect_uri self));
          ("scope", scopes self);
          ("state", state self)].
Proof. exact (build_auth_url_query self). Qed.

Lemma build_auth_url_reads_back_witness :
  parse_qsl (url_query (_build_auth_url
                          (mkAuthManager (JObj []) (JStr "a&b=c") (JStr "s")
                             (JStr "https://example.com/cb?x=1#frag")
                             "read:profile offline" "s 1" (JObj []))))
  = Some [("client_id", "a&b=c"); ("response_type", "code");
          ("redirect_uri", "https://example.com/cb?x=1#frag");
          ("scope", "read:profile offline"); ("state", "s 1")].
Proof.
  apply (build_auth_url_reads_back
           (mkAuthManager (JObj []) (JStr "a&b=c") (JStr "s")
              (JStr "https://example.com/cb?x=1#frag")
              "read:profile offline" "s 1" (JObj [])));
    discriminate.
Defined.

